(** * album_arrange.py: catalog store, dedup and ordering, sequencing, split

    A shallow embedding of [src/album_arrange.py].  Python dictionaries that
    are only read and written by key ([database], the "hash" and "index"
    sections, [accept_map], [live_map]) are finite maps; the dictionaries
    that [seperate_database] iterates over are association lists in
    insertion order.  The body of [import_assets] mutates its dictionaries in
    place and may raise, so it lives in a state-and-exception monad whose
    state survives a raise.  The run is followed over catalog files that
    are missing, unreadable or JSON objects; [CatalogFile] has
    [get_database] over every JSON document.  The times of a file made by
    [shutil.copy] come from a clock that the statements are general in. *)

From Stdlib Require Import ZArith String Ascii DecimalString Sorting.Sorted
  Sorting.Permutation.
From Stdlib Require DecimalN.
From stdpp Require Import gmap strings list fin_maps sorting.

Local Open Scope Z_scope.

(** ** Python primitives used by the script *)

Module Py.

(** [str(n)] for an [int]. *)
Definition str (z : Z) : string := NilZero.string_of_int (Z.to_int z).

Fixpoint zeros (n : nat) : string :=
  match n with
  | O => EmptyString
  | S n' => String "0"%char (zeros n')
  end.

(** ['%0<w>d' % z]: the sign, then zeros, then the digits, at least [w]
    characters in all. *)
Definition percent_0d (w : nat) (z : Z) : string :=
  let digits := NilZero.string_of_uint (N.to_uint (Z.abs_N z)) in
  if z <? 0
  then String "-"%char (zeros (w - 1 - String.length digits) +:+ digits)
  else zeros (w - String.length digits) +:+ digits.

Fixpoint rfind_from (c : ascii) (s : string) (i last : Z) : Z :=
  match s with
  | EmptyString => last
  | String a s' => rfind_from c s' (i + 1) (if Ascii.eqb a c then i else last)
  end.

(** [s.rfind(c)] for a one-character [c]: the last index of [c], or [-1]. *)
Definition rfind (s : string) (c : ascii) : Z := rfind_from c s 0 (-1).

Definition len (s : string) : Z := Z.of_nat (String.length s).

(** A slice bound as Python clips it: negative bounds count from the end. *)
Definition clip (s : string) (k : Z) : nat :=
  Z.to_nat (if k <? 0 then Z.max 0 (len s + k) else Z.min k (len s)).

(** [s[:k]] *)
Definition slice_to (s : string) (k : Z) : string :=
  String.substring 0 (clip s k) s.

(** [s[k:]] *)
Definition slice_from (s : string) (k : Z) : string :=
  String.substring (clip s k) (String.length s - clip s k) s.

(** [a > b] on [str]: lexicographic on characters.  A [string] holds the
    characters of the Python string; for UTF-8 text the order of the bytes
    is the order of the code points. *)
Definition str_gt (a b : string) : bool :=
  match String.compare a b with Gt => true | _ => false end.

(** [os.path.join(a, b)] on POSIX. *)
Definition path_join (a b : string) : string :=
  match b with
  | String "/"%char _ => b
  | _ =>
    if String.eqb a EmptyString then b
    else if String.eqb (slice_from a (len a - 1)) "/" then a +:+ b
    else a +:+ "/" +:+ b
  end.

Record struct_time := StructTime { tm_year : Z; tm_mon : Z; tm_mday : Z }.

(** [time.strftime('%Y-%m-%d', t)] *)
Definition strftime_Ymd (t : struct_time) : string :=
  percent_0d 4 (tm_year t) +:+ "-" +:+ percent_0d 2 (tm_mon t) +:+ "-"
  +:+ percent_0d 2 (tm_mday t).

Inductive exn :=
| TypeError
| KeyError
| AssertionError
| FileNotFoundError
| JSONDecodeError.

Inductive result (A : Type) := Ok (a : A) | Raise (e : exn).
Arguments Ok {A} a.
Arguments Raise {A} e.

End Py.

Import Py.

(** ** Data model *)

Definition DATABASE_FIELD_NAME_INDEX : string := "index".
Definition DATABASE_FIELD_NAME_HASH : string := "hash".

(** What [os.stat], [os.path.getmtime] (through [time.localtime]) and the
    MD5 of the first [hash_size] bytes give for one regular file.
    [st_birthtime] is a number of seconds; only its order is used. *)
Record file_stat := FileStat {
  st_birthtime : Z;
  st_mtime : struct_time;
  md5_hexdigest : string
}.

(** A catalog in memory: the two sections, always present once loaded. *)
Record catalog := Catalog {
  hash : gmap string string;
  index : gmap string Z
}.

(** The catalog files the run is followed over: at
    [project_path/<name>/database.json] there is a file that [open] or
    [json.load] fails on, or a JSON object whose "hash" and "index" members
    may be absent and are, when present, an object of strings and an object
    of integers.  These are the files the script writes and the ones the
    bare [except] answers for.  A file that parses to any other JSON value
    is not among them; [CatalogFile] below follows [get_database] over every
    JSON document, where such a file makes it raise. *)
Inductive stored :=
| Unreadable
| Document (h : option (gmap string string)) (i : option (gmap string Z)).

(** The tuple [(timestamp, mtime, digest, target_location)]. *)
Record item := Item {
  timestamp : Z;
  mtime : struct_time;
  digest : string;
  target_location : string
}.

Inductive fs_op :=
| Copy (src dst : string)
| Move (src dst : string).

(** Lines printed on standard output. *)
Inductive line :=
| PrintDup (digest path : string)
| PrintPlaced (digest src dst : string)
| PrintDatabase (name : string).

Record ArgumentOptions := Options {
  work_path : string;
  project_name : string;
  with_copy : bool;
  with_date : bool
}.

(** Everything [import_assets] reads or mutates.  [files] are the regular
    files by path and [disk] the stored catalogs by year name; directories
    are not modelled.  [allocated] is a history variable that the script
    does not have: it records, oldest first, every read of a counter at
    [sequence = index_map.get(label)] as (catalog name, label, sequence). *)
Record run_state := RunState {
  database : gmap string catalog;
  increment_list : list item;
  accept_map : gmap string string;
  live_map : gmap string (Z * Z);
  files : gmap string file_stat;
  disk : gmap string stored;
  ops : list fs_op;
  stdout : list line;
  allocated : list (string * string * Z)
}.

Definition init_state (fs : gmap string file_stat) (d : gmap string stored)
  : run_state :=
  RunState ∅ [] ∅ ∅ fs d [] [] [].

(** In-place updates of one component. *)
Definition set_database (f : gmap string catalog → gmap string catalog)
  (s : run_state) : run_state :=
  RunState (f (database s)) (increment_list s) (accept_map s) (live_map s)
    (files s) (disk s) (ops s) (stdout s) (allocated s).
Definition set_increment_list (f : list item → list item) (s : run_state)
  : run_state :=
  RunState (database s) (f (increment_list s)) (accept_map s) (live_map s)
    (files s) (disk s) (ops s) (stdout s) (allocated s).
Definition set_accept_map (f : gmap string string → gmap string string)
  (s : run_state) : run_state :=
  RunState (database s) (increment_list s) (f (accept_map s)) (live_map s)
    (files s) (disk s) (ops s) (stdout s) (allocated s).
Definition set_live_map (f : gmap string (Z * Z) → gmap string (Z * Z))
  (s : run_state) : run_state :=
  RunState (database s) (increment_list s) (accept_map s) (f (live_map s))
    (files s) (disk s) (ops s) (stdout s) (allocated s).
Definition set_files (f : gmap string file_stat → gmap string file_stat)
  (s : run_state) : run_state :=
  RunState (database s) (increment_list s) (accept_map s) (live_map s)
    (f (files s)) (disk s) (ops s) (stdout s) (allocated s).
Definition set_disk (f : gmap string stored → gmap string stored)
  (s : run_state) : run_state :=
  RunState (database s) (increment_list s) (accept_map s) (live_map s)
    (files s) (f (disk s)) (ops s) (stdout s) (allocated s).
Definition log_op (o : fs_op) (s : run_state) : run_state :=
  RunState (database s) (increment_list s) (accept_map s) (live_map s)
    (files s) (disk s) (ops s ++ [o]) (stdout s) (allocated s).
Definition print (l : line) (s : run_state) : run_state :=
  RunState (database s) (increment_list s) (accept_map s) (live_map s)
    (files s) (disk s) (ops s) (stdout s ++ [l]) (allocated s).
Definition log_allocated (a : string * string * Z) (s : run_state)
  : run_state :=
  RunState (database s) (increment_list s) (accept_map s) (live_map s)
    (files s) (disk s) (ops s) (stdout s) (allocated s ++ [a]).

(** ** The monad of [import_assets] *)

Definition M (A : Type) : Type := run_state → run_state * result A.

Definition ret {A} (a : A) : M A := λ s, (s, Ok a).
Definition raise {A} (e : exn) : M A := λ s, (s, Raise e).
Definition bind {A B} (m : M A) (k : A → M B) : M B :=
  λ s, match m s with
       | (s', Ok a) => k a s'
       | (s', Raise e) => (s', Raise e)
       end.
Definition gets {A} (f : run_state → A) : M A := λ s, (s, Ok (f s)).
Definition modify (f : run_state → run_state) : M unit := λ s, (f s, Ok tt).

Notation "x <- m ;; k" := (bind m (λ x, k))
  (at level 100, m at next level, right associativity).
Notation "m ;;; k" := (bind m (λ _, k))
  (at level 100, right associativity).

(** [for x in l: body(x)] *)
Fixpoint for_each {A} (body : A → M unit) (l : list A) : M unit :=
  match l with
  | [] => ret tt
  | x :: l' => body x ;;; for_each body l'
  end.

Definition contains {V} (m : gmap string V) (k : string) : bool :=
  match m !! k with Some _ => true | None => false end.

(** ** Catalog store: [get_database] *)

(** [data = {}], the [json.load] guarded by [os.path.exists] and the bare
    [except], then the two [if field_name not in data] defaults, on the
    catalog files of [stored].  On these the two defaults cannot raise;
    [CatalogFile.get_database] has the other documents. *)
Definition load (d : gmap string stored) (name : string) : catalog :=
  match d !! name with
  | Some (Document h i) => Catalog (default ∅ h) (default ∅ i)
  | Some Unreadable => Catalog ∅ ∅
  | None => Catalog ∅ ∅
  end.

Definition get_database (name : string) (reload_from_disk : bool) : M catalog :=
  λ s,
    let read :=
      let data := load (disk s) name in
      (set_database <[name := data]> s, Ok data) in
    match database s !! name with
    | Some data => if negb reload_from_disk then (s, Ok data) else read
    | None => read
    end.

(** ** Catalog store: [get_database] over every JSON document *)

Module CatalogFile.

(** A value as [json.load] returns it: [None], a [bool], a number (kept as
    its literal), a [str], a [list] or a [dict]. *)
#[warnings="-register-all"]
Inductive json :=
| JNull
| JBool (b : bool)
| JNumber (literal : string)
| JString (s : string)
| JArray (elements : list json)
| JObject (members : gmap string json).

(** What is at [project_path/<name>/database.json] when the path exists: a
    file on which [open(database_path, 'r+')] or [json.load] raises, or a
    file that holds a JSON document. *)
Inductive catalog_file :=
| Unparsable
| Parsed (data : json).

(** [needle in s] on two [str]: [needle] occurs somewhere in [s]. *)
Fixpoint occurs (needle s : string) : bool :=
  String.prefix needle s
  || match s with
     | EmptyString => false
     | String _ s' => occurs needle s'
     end.

(** [x == field_name] for an element [x] of a list. *)
Definition is_string (field_name : string) (x : json) : bool :=
  match x with
  | JString s => String.eqb s field_name
  | _ => false
  end.

(** [field_name in data]: a key of a [dict], an element of a [list], a
    part of a [str]; [None], a [bool] and a number are not iterable. *)
Definition has_field (field_name : string) (data : json) : result bool :=
  match data with
  | JObject members => Ok (contains members field_name)
  | JArray elements => Ok (existsb (is_string field_name) elements)
  | JString s => Ok (occurs field_name s)
  | JNull | JBool _ | JNumber _ => Raise TypeError
  end.

(** [data[field_name] = {}]: only a [dict] takes a [str] key. *)
Definition set_field (field_name : string) (data : json) : result json :=
  match data with
  | JObject members => Ok (JObject (<[field_name := JObject ∅]> members))
  | _ => Raise TypeError
  end.

(** [if field_name not in data: data[field_name] = {}] *)
Definition default_field (field_name : string) (data : json) : result json :=
  match has_field field_name data with
  | Raise e => Raise e
  | Ok true => Ok data
  | Ok false => set_field field_name data
  end.

(** [for field_name in [DATABASE_FIELD_NAME_HASH, DATABASE_FIELD_NAME_INDEX]] *)
Definition default_fields (data : json) : result json :=
  match default_field DATABASE_FIELD_NAME_HASH data with
  | Raise e => Raise e
  | Ok data => default_field DATABASE_FIELD_NAME_INDEX data
  end.

(** Lines 85 to 99.  [disk] has the catalog files by year name, [database]
    is the dictionary of the run.  The [try] ends before the loop over the
    two field names, so what the loop raises leaves [get_database], and
    [database[name] = data] is not reached. *)
Definition get_database (disk : gmap string catalog_file) (name : string)
  (reload_from_disk : bool) (database : gmap string json)
  : gmap string json * result json :=
  let read :=
    let data :=
      match disk !! name with
      | Some (Parsed data) => data
      | Some Unparsable => JObject ∅
      | None => JObject ∅
      end in
    match default_fields data with
    | Raise e => (database, Raise e)
    | Ok data => (<[name := data]> database, Ok data)
    end in
  match database !! name with
  | Some data => if negb reload_from_disk then (database, Ok data) else read
  | None => read
  end.

End CatalogFile.

(** [write_database(data, project_path=os.path.join(project_path, name))] *)
Definition write_database (name : string) (data : catalog) : M unit :=
  modify (set_disk <[name := Document (Some (hash data)) (Some (index data))]>) ;;;
  modify (print (PrintDatabase name)).

(** ** Dedup and ordering *)

(** One turn of [for target_location in asset_list]. *)
Definition scan_asset (target_location : string) : M unit :=
  st <- gets (λ s, files s !! target_location) ;;
  match st with
  | None => raise FileNotFoundError
  | Some st =>
    let timestamp := st_birthtime st in
    let mtime := st_mtime st in
    data <- get_database (str (tm_year mtime)) false ;;
    let unick_map := hash data in
    let digest := md5_hexdigest st in
    accepted <- gets accept_map ;;
    if contains unick_map digest || contains accepted digest
    then modify (print (PrintDup digest target_location))
    else
      modify (set_accept_map <[digest := target_location]>) ;;;
      modify (set_increment_list
                (λ l, l ++ [Item timestamp mtime digest target_location]))
  end.

(** [a[0]] is the timestamp and [a[-1]] the target location. *)
Definition camera_roll_sort (a b : item) : Z :=
  if negb (timestamp a =? timestamp b)
  then (if timestamp a >? timestamp b then 1 else -1)
  else (if str_gt (target_location a) (target_location b) then 1 else -1).

(** [functools.cmp_to_key]: the only comparison [list.sort] uses is [<]. *)
Definition cmp_to_key_lt {A} (mycmp : A → A → Z) (a b : A) : bool :=
  mycmp a b <? 0.

(** [list.sort] is a stable comparison sort; it is modelled by the stable
    insertion sort that puts each element before the first one it is less
    than.  On keys that the comparison orders strictly and totally every
    comparison sort returns the same list. *)
Fixpoint insert_sorted {A} (lt : A → A → bool) (x : A) (l : list A) : list A :=
  match l with
  | [] => [x]
  | y :: l' => if lt x y then x :: y :: l' else y :: insert_sorted lt x l'
  end.

Definition list_sort {A} (lt : A → A → bool) (l : list A) : list A :=
  fold_left (λ acc x, insert_sorted lt x acc) l [].

(** ** Sequencing and placement *)

Definition label_of (it : item) : string :=
  percent_0d 2 (tm_year (mtime it)) +:+ percent_0d 2 (tm_mon (mtime it)).

(** The name under which [get_database] is asked for the item's catalog. *)
Definition database_name_of (it : item) : string := str (tm_year (mtime it)).

Definition common_path_of (it : item) : string :=
  slice_to (target_location it) (rfind (target_location it) ".").

Definition extension_of (it : item) : string :=
  slice_from (target_location it) (rfind (target_location it) "." + 1).

Definition file_name_of (it : item) (sequence : Z) : string :=
  label_of it +:+ "_" +:+ percent_0d 4 sequence +:+ "." +:+ extension_of it.

Definition dst_group_location_of (options : ArgumentOptions) (it : item)
  : string :=
  let project_path := path_join (work_path options) (project_name options) in
  let dst_group_location :=
    project_path +:+ "/" +:+ percent_0d 4 (tm_year (mtime it)) in
  if with_date options
  then path_join dst_group_location (strftime_Ymd (mtime it))
  else dst_group_location.

Definition dst_location_of (options : ArgumentOptions) (it : item)
  (sequence : Z) : string :=
  dst_group_location_of options it +:+ "/" +:+ file_name_of it sequence.

(** The cached catalog objects are shared: a write through [index_map] or
    [unick_map] is a write into [database[name]]. *)
Definition set_index (name label : string) (f : Z → Z) : M unit :=
  modify (set_database
            (alter (λ d, Catalog (hash d) (alter f label (index d))) name)).

Definition put_index (name label : string) (v : Z) : M unit :=
  modify (set_database
            (alter (λ d, Catalog (hash d) (<[label := v]> (index d))) name)).

Definition put_hash (name digest file_name : string) : M unit :=
  modify (set_database
            (alter (λ d, Catalog (<[digest := file_name]> (hash d)) (index d))
               name)).

(** Lines 130 to 143 of a turn of the placement loop: the sequence number
    of the item. *)
Definition assign_sequence (it : item) : M Z :=
  let label := label_of it in
  let name := database_name_of it in
  index_map <- get_database name false ;;
  _ <- get_database name false ;;
  (if contains (index index_map) label then ret tt else put_index name label 1) ;;;
  let common_path := common_path_of it in
  entry <- gets (λ s, live_map s !! common_path) ;;
  match entry with
  | None => raise TypeError
  | Some (sequence, reference_count) =>
    let sequence := if reference_count >=? 2 then 0 else sequence in
    if sequence =? 0
    then
      counter <- gets (λ s, d ← database s !! name; index d !! label) ;;
      match counter with
      | None => raise KeyError
      | Some sequence =>
        modify (log_allocated (name, label, sequence)) ;;;
        modify (set_live_map <[common_path := (sequence, 1)]>) ;;;
        set_index name label (λ v, v + 1) ;;;
        ret sequence
      end
    else
      modify (set_live_map <[common_path := (sequence, reference_count + 1)]>) ;;;
      ret sequence
  end.

(** The times of a file that is created now come from the clock of the
    machine, which the script never reads itself: [copy_times dst] is the
    [st_birthtime] and the local [st_mtime] that the file system gives to
    a file created at [dst]. *)
Class Clock := copy_times : string → Z * struct_time.

(** What [os.stat] and the fingerprint give for the copy that [shutil.copy]
    makes at [dst] of a file with [st]: the data, hence the fingerprint, of
    the source, and the times of a new file. *)
Definition copy_stat `{Clock} (dst : string) (st : file_stat) : file_stat :=
  FileStat (fst (copy_times dst)) (snd (copy_times dst)) (md5_hexdigest st).

(** [shutil.copy] of a regular file to a path that does not exist: the data
    and the permission bits are copied, the times are not. *)
Definition shutil_copy `{Clock} (src dst : string) : M unit :=
  st <- gets (λ s, files s !! src) ;;
  match st with
  | None => raise FileNotFoundError
  | Some st =>
    modify (set_files <[dst := copy_stat dst st]>) ;;;
    modify (log_op (Copy src dst))
  end.

(** [shutil.move] of a regular file within one file system: [os.rename],
    which keeps the file as it is. *)
Definition shutil_move (src dst : string) : M unit :=
  st <- gets (λ s, files s !! src) ;;
  match st with
  | None => raise FileNotFoundError
  | Some st =>
    modify (set_files (λ fs, <[dst := st]> (delete src fs))) ;;;
    modify (log_op (Move src dst))
  end.

(** Lines 144 to 158: the destination, the assertion, the catalog entry and
    the copy or move. *)
Definition place_file `{Clock} (options : ArgumentOptions) (it : item)
  (sequence : Z) : M unit :=
  let file_name := file_name_of it sequence in
  let dst_location := dst_location_of options it sequence in
  present <- gets (λ s, contains (files s) dst_location) ;;
  if present then raise AssertionError
  else
    put_hash (database_name_of it) (digest it) file_name ;;;
    (if with_copy options
     then shutil_copy (target_location it) dst_location
     else shutil_move (target_location it) dst_location) ;;;
    modify (print (PrintPlaced (digest it) (target_location it) dst_location)).

(** One turn of [for n in range(len(increment_list))]. *)
Definition place_item `{Clock} (options : ArgumentOptions) (it : item)
  : M unit :=
  sequence <- assign_sequence it ;;
  place_file options it sequence.

(** The whole command.  The final loop over [database.items()] writes the
    cached catalogs; each is written to its own file, so the order of the
    writes does not show in [disk]. *)
Definition import_assets `{Clock} (options : ArgumentOptions)
  (asset_list : list string) : M unit :=
  for_each scan_asset asset_list ;;;
  modify (set_increment_list (list_sort (cmp_to_key_lt camera_roll_sort))) ;;;
  l <- gets increment_list ;;
  for_each (place_item options) l ;;;
  db <- gets database ;;
  for_each (λ '(name, mini_database), write_database name mini_database)
    (map_to_list db).

(** ** Split: [seperate_database] *)

Module Split.

(** The aggregate [database.json] as [json.load(open(...))] finds it.  A
    parsed section is a dictionary in its document order, keys distinct. *)
Inductive aggregate :=
| NoFile
| Malformed
| Parsed (index_map : option (list (string * Z)))
         (hash_map : option (list (string * string))).

Record mini_database := MiniDatabase {
  mini_index : list (string * Z);
  mini_hash : list (string * string)
}.

(** [d[k] = v] on a dictionary kept in insertion order. *)
Fixpoint dict_set {V} (k : string) (v : V) (d : list (string * V))
  : list (string * V) :=
  match d with
  | [] => [(k, v)]
  | (k', v') :: d' =>
    if String.eqb k' k then (k', v) :: d' else (k', v') :: dict_set k v d'
  end.

Fixpoint dict_get {V} (k : string) (d : list (string * V)) : option V :=
  match d with
  | [] => None
  | (k', v') :: d' => if String.eqb k' k then Some v' else dict_get k d'
  end.

(** [if year not in group: group[year] = []] then [group[year].append(x)] *)
Fixpoint group_append {X} (year : string) (x : X)
  (group : list (string * list X)) : list (string * list X) :=
  match group with
  | [] => [(year, [x])]
  | (y, l) :: group' =>
    if String.eqb y year then (y, l ++ [x]) :: group'
    else (y, l) :: group_append year x group'
  end.

(** [year = name[:4]] of an index entry [(name, value)]. *)
Definition index_year (e : string * Z) : string := slice_to (fst e) 4.

(** [year = name[:4]] of a hash entry [(hash, name)]. *)
Definition hash_year (e : string * string) : string := slice_to (snd e) 4.

Definition group_by {X} (year : X → string) (d : list X)
  : list (string * list X) :=
  fold_left (λ group x, group_append (year x) x group) d [].

(** [a.keys() == b.keys()]: equality of key views is equality of sets. *)
Definition keys_eq {X Y} (a : list (string * X)) (b : list (string * Y))
  : bool :=
  forallb (λ k, existsb (String.eqb k) (map fst b)) (map fst a)
  && forallb (λ k, existsb (String.eqb k) (map fst a)) (map fst b).

Definition build_dict {V} (l : list (string * V)) : list (string * V) :=
  fold_left (λ d e, dict_set (fst e) (snd e) d) l [].

(** The loop [for year in group_index_map.keys()], with the catalogs written
    so far; they stay written when a later turn raises. *)
Fixpoint write_years (path_exists : string → bool) (project_path : string)
  (group_index_map : list (string * list (string * Z)))
  (group_hash_map : list (string * list (string * string)))
  (years : list string) (written : list (string * mini_database))
  : list (string * mini_database) * result unit :=
  match years with
  | [] => (written, Ok tt)
  | year :: years' =>
    let mini_project_path := path_join project_path year in
    if negb (path_exists mini_project_path) then (written, Raise AssertionError)
    else
      match dict_get year group_index_map, dict_get year group_hash_map with
      | Some gi, Some gh =>
        let mini := MiniDatabase (build_dict gi) (build_dict gh) in
        write_years path_exists project_path group_index_map group_hash_map
          years' (written ++ [(year, mini)])
      | _, _ => (written, Raise TypeError)
      end
  end.

(** The catalogs written, each with the year directory it is written in,
    and how the command ends. *)
Definition seperate_database (path_exists : string → bool)
  (project_path : string) (file : aggregate)
  : list (string * mini_database) * result unit :=
  match file with
  | NoFile => ([], Raise FileNotFoundError)
  | Malformed => ([], Raise JSONDecodeError)
  | Parsed index_map hash_map =>
    match index_map with
    | None | Some [] => ([], Raise AssertionError)
    | Some index_map =>
      let group_index_map := group_by index_year index_map in
      match hash_map with
      | None | Some [] => ([], Raise AssertionError)
      | Some hash_map =>
        let group_hash_map := group_by hash_year hash_map in
        if negb (keys_eq group_hash_map group_index_map)
        then ([], Raise AssertionError)
        else write_years path_exists project_path group_index_map
               group_hash_map (map fst group_index_map) []
      end
    end
  end.

End Split.

(** ** Vocabulary of the statements *)

(** The order [camera_roll_sort] decides on items of distinct paths:
    birth time first, then the source path. *)
Definition sort_key_lt (a b : item) : Prop :=
  timestamp a < timestamp b
  ∨ (timestamp a = timestamp b
     ∧ String.compare (target_location a) (target_location b) = Lt).


(** The catalog [get_database(name)] returns in state [s], and the state it
    leaves: the cached object when there is one, else what is read from
    disk, which is then cached. *)
Definition view (s : run_state) (name : string) : catalog :=
  match database s !! name with
  | Some data => data
  | None => load (disk s) name
  end.

Definition cached (name : string) (s : run_state) : run_state :=
  match database s !! name with
  | Some _ => s
  | None => set_database <[name := load (disk s) name]> s
  end.

(** The scan only reads the file system and never touches the companion
    table. *)
Definition same_world (s0 s : run_state) : Prop :=
  live_map s = live_map s0 ∧ files s = files s0 ∧ disk s = disk s0
  ∧ ops s = ops s0 ∧ allocated s = allocated s0.

(** Accepted items have distinct fingerprints, each recorded in
    [accept_map], and carry the fingerprint of the file at their path. *)
Definition accepted_inv (s : run_state) : Prop :=
  NoDup (digest <$> increment_list s)
  ∧ ∀ it, it ∈ increment_list s →
      contains (accept_map s) (digest it) = true
      ∧ md5_hexdigest <$> files s !! target_location it = Some (digest it).

(** The accepted assets of a run on [asset_list], before they are sorted. *)
Definition survivors (fs : gmap string file_stat) (d : gmap string stored)
  (asset_list : list string) : list item :=
  increment_list (fst (for_each scan_asset asset_list (init_state fs d))).

(** The survivors as [increment_list.sort(key=cmp_to_key(camera_roll_sort))]
    leaves them. *)
Definition ordered (fs : gmap string file_stat) (d : gmap string stored)
  (asset_list : list string) : list item :=
  list_sort (cmp_to_key_lt camera_roll_sort) (survivors fs d asset_list).

(** Items of equal timestamp stand in ascending order of fingerprint. *)
Definition fingerprint_ordered (l : list item) : Prop :=
  ∀ (i j : nat) (a b : item),
    l !! i = Some a → l !! j = Some b → (i < j)%nat →
    timestamp a = timestamp b →
    String.compare (digest a) (digest b) = Lt.

(** Two files created in the same second; the one whose path sorts first
    has the greater fingerprint. *)
Definition same_second_files : gmap string file_stat :=
  <["/in/IMG_0001.JPG" :=
      FileStat 1682899200 (StructTime 2023 5 1) "f3b0c44298fc1c14"]>
  (<["/in/IMG_0002.JPG" :=
      FileStat 1682899200 (StructTime 2023 5 1) "0a4d55a8d778e502"]> ∅).

(** A project that already holds one file of May 2023, and a source folder
    with a copy of it under another name. *)
Definition catalog_2023 : gmap string stored :=
  <["2023" := Document (Some (<["f3b0c44298fc1c14" := "202305_0001.JPG"]> ∅))
                       (Some (<["202305" := 2]> ∅))]> ∅.

Definition reimported_files : gmap string file_stat :=
  <["/in/IMG_0001.JPG" :=
      FileStat 1682899200 (StructTime 2023 5 1) "f3b0c44298fc1c14"]> ∅.

(** The label's current counter in the catalog [name]: 1 if the label has
    not been seen. *)
Definition counter (s : run_state) (name label : string) : Z :=
  default 1 (index (view s name) !! label).

(** The state after the two [get_database] calls and
    [if label not in index_map: index_map[label] = 1]. *)
Definition prepared (it : item) (s : run_state) : run_state :=
  let name := database_name_of it in
  let label := label_of it in
  if contains (index (view s name)) label then cached name s
  else set_database
         (alter (λ d, Catalog (hash d) (<[label := 1]> (index d))) name)
         (cached name s).

(** The state after a new sequence number was taken from the counter. *)
Definition allocate (it : item) (s : run_state) : run_state :=
  let name := database_name_of it in
  let label := label_of it in
  let sequence := counter s name label in
  set_database
    (alter (λ d, Catalog (hash d) (alter (λ v, v + 1) label (index d))) name)
    (set_live_map <[common_path_of it := (sequence, 1)]>
       (log_allocated (name, label, sequence) (prepared it s))).

(** [--work-path /Volumes/Remember/CameraRoll --project-name album] *)
Definition album_options : ArgumentOptions :=
  Options "/Volumes/Remember/CameraRoll" "album" false false.

(** Three files of distinct content, created and last modified on the
    first three days of May 2023 (timestamps at 00:00 UTC). *)
Definition may_files : gmap string file_stat :=
  <["/in/A.JPG" := FileStat 1682899200 (StructTime 2023 5 1) "0cc175b9c0f1b6a8"]>
  (<["/in/B.MOV" := FileStat 1682985600 (StructTime 2023 5 2) "92eb5ffee6ae2fec"]>
  (<["/in/C.jpg" := FileStat 1683072000 (StructTime 2023 5 3) "4a8a08f09d37b737"]>
   ∅)).

(** The state [place_file] leaves when the destination is free and the
    source exists. *)
Definition placed `{Clock} (options : ArgumentOptions) (it : item)
  (sequence : Z) (st : file_stat) (s : run_state) : run_state :=
  let dst_location := dst_location_of options it sequence in
  let src_location := target_location it in
  print (PrintPlaced (digest it) src_location dst_location)
    (log_op (if with_copy options then Copy src_location dst_location
             else Move src_location dst_location)
       (set_files (if with_copy options
                   then <[dst_location := copy_stat dst_location st]>
                   else λ fs, <[dst_location := st]> (delete src_location fs))
          (set_database
             (alter (λ d, Catalog (<[digest it := file_name_of it sequence]>
                                     (hash d)) (index d))
                (database_name_of it)) s))).

(** What the claim that labels come from the creation time would mean:
    accepted assets created at the same time get the same label, the same
    year directory and the same catalog. *)
Definition placed_by_creation_time (options : ArgumentOptions) : Prop :=
  ∀ (fs : gmap string file_stat) (d : gmap string stored)
    (asset_list : list string) (a b : item),
    a ∈ survivors fs d asset_list → b ∈ survivors fs d asset_list →
    timestamp a = timestamp b →
    label_of a = label_of b
    ∧ dst_group_location_of options a = dst_group_location_of options b
    ∧ database_name_of a = database_name_of b.

(** Two files created in the same second of May 2023; the second was
    last modified in June 2024. *)
Definition touched_files : gmap string file_stat :=
  <["/in/IMG_0001.JPG" :=
      FileStat 1682899200 (StructTime 2023 5 1) "f3b0c44298fc1c14"]>
  (<["/in/IMG_0002.JPG" :=
      FileStat 1682899200 (StructTime 2024 6 15) "0a4d55a8d778e502"]> ∅).

(** A turn of the placement loop for the video of a pair whose photo took
    sequence number 1, in a project where [202305_0001.MOV] already
    exists. *)
Definition pair_files : gmap string file_stat :=
  <["/in/IMG_0001.MOV" :=
      FileStat 1682899200 (StructTime 2023 5 1) "92eb5ffee6ae2fec"]>
  (<["/Volumes/Remember/CameraRoll/album/2023/202305_0001.MOV" :=
      FileStat 1682899000 (StructTime 2023 5 1) "4a8a08f09d37b737"]> ∅).

Definition pair_item : item :=
  Item 1682899200 (StructTime 2023 5 1) "92eb5ffee6ae2fec" "/in/IMG_0001.MOV".

Definition pair_state (fs : gmap string file_stat) : run_state :=
  set_live_map (λ _, <["/in/IMG_0001" := (1, 1)]> ∅) (init_state fs ∅).

(** The same turn in a project where the destination is free. *)
Definition video_only : gmap string file_stat :=
  <["/in/IMG_0001.MOV" :=
      FileStat 1682899200 (StructTime 2023 5 1) "92eb5ffee6ae2fec"]> ∅.




(** The loop state after a photo and its video took sequence number 1 of
    May 2023. *)
Definition after_pair : run_state :=
  set_database (λ _, <["2023" := Catalog ∅ (<["202305" := 2]> ∅)]> ∅)
    (set_live_map (λ _, <["/in/IMG_0001" := (1, 2)]> ∅)
       (log_allocated ("2023", "202305", 1) (init_state ∅ ∅))).

Definition third_member : item :=
  Item 1682899200 (StructTime 2023 5 1) "4a8a08f09d37b737" "/in/IMG_0001.HEIC".

(** A third member of the pair, and its file. *)
Definition heic_only : gmap string file_stat :=
  <["/in/IMG_0001.HEIC" :=
      FileStat 1682899200 (StructTime 2023 5 1) "4a8a08f09d37b737"]> ∅.

Definition after_pair_with (fs : gmap string file_stat) : run_state :=
  set_files (λ _, fs) after_pair.

(** ** Vocabulary of the split *)

(** The entries of the aggregate catalog that belong to [year]. *)
Definition year_catalog (index_map : list (string * Z))
  (hash_map : list (string * string)) (year : string) : Split.mini_database :=
  Split.MiniDatabase
    (filter (λ e, Split.index_year e = year) index_map)
    (filter (λ e, Split.hash_year e = year) hash_map).

(** The years of the SequenceIndex labels and of the HashIndex file names
    are the same set. *)
Definition same_years (index_map : list (string * Z))
  (hash_map : list (string * string)) : Prop :=
  ∀ year, year ∈ Split.index_year <$> index_map
          ↔ year ∈ Split.hash_year <$> hash_map.

(** An aggregate catalog over two years, and the project directory it is
    split in. *)
Definition aggregate_index : list (string * Z) :=
  [("202305", 3); ("202212", 2); ("202306", 2)].

Definition aggregate_hash : list (string * string) :=
  [("0cc175b9c0f1b6a8", "202305_0001.JPG");
   ("92eb5ffee6ae2fec", "202212_0001.MOV");
   ("4a8a08f09d37b737", "202305_0002.JPG");
   ("8277e0910d750195", "202306_0001.jpg")].

Definition year_directories (path : string) : bool :=
  String.eqb path "/album/2023" || String.eqb path "/album/2022".

(** ** Vocabulary of the further properties *)

(** [c in s] for a one-character [c]. *)
Fixpoint has_char (c : ascii) (s : string) : bool :=
  match s with
  | EmptyString => false
  | String a s' => Ascii.eqb a c || has_char c s'
  end.

(** A path made of a stem and one last character. *)
Definition snoc_char (s : string) (c : ascii) : string :=
  s +:+ String c EmptyString.

(** An asset whose name has no extension. *)
Definition dotless_item : item :=
  Item 1682899200 (StructTime 2023 5 1) "0cc175b9c0f1b6a8" "/in/README".

(** Reading a decimal field back: the digits as a number, leading zeros
    allowed. *)
Definition decode_decimal (s : string) : option N :=
  N.of_uint <$> NilEmpty.uint_of_string s.

Definition is_dup_line (l : line) : bool :=
  match l with
  | PrintDup _ _ => true
  | _ => false
  end.

(** The number of [[DUP]] lines printed so far. *)
Definition dup_count (s : run_state) : nat :=
  length (List.filter is_dup_line (stdout s)).

(** Every cached catalog is what its file holds: true as long as no turn
    of the placement loop has run. *)
Definition cache_fresh (s : run_state) : Prop :=
  ∀ name c, database s !! name = Some c → c = load (disk s) name.

(** A source list that names a file that is not there. *)
Definition with_missing_path : list string :=
  ["/in/IMG_0001.JPG"; "/in/IMG_9999.JPG"].

(** A fourth member of the same companion group. *)
Definition fourth_member : item :=
  Item 1682899300 (StructTime 2023 5 1) "8277e0910d750195" "/in/IMG_0001.PNG".

(** The years of a section in the order of their first appearance. *)
Definition add_year (years : list string) (year : string) : list string :=
  if decide (year ∈ years) then years else years ++ [year].

Definition years_in_order (years : list string) : list string :=
  fold_left add_year years [].

(** Only the directory of 2023 exists. *)
Definition only_2023 (path : string) : bool := String.eqb path "/album/2023".

(** What the scan makes of one path when nothing with the same fingerprint
    was accepted before it: no item if the file is missing or its
    fingerprint is in the stored HashIndex of its year, else its item. *)
Definition candidate (fs : gmap string file_stat) (d : gmap string stored)
  (p : string) : option item :=
  match fs !! p with
  | None => None
  | Some st =>
    if contains (hash (load d (str (tm_year (st_mtime st))))) (md5_hexdigest st)
    then None
    else Some (Item (st_birthtime st) (st_mtime st) (md5_hexdigest st) p)
  end.

(** The fingerprint of the file at a path, if there is one. *)
Definition fingerprint_at (fs : gmap string file_stat) (p : string)
  : option string :=
  md5_hexdigest <$> fs !! p.

(** ** Import from another project: [import_assets_from_project] *)

Module Project.

Inductive raised :=
| FileNotFoundError
| JSONDecodeError
| AttributeError.

Section project.

Context {clock : Clock}.

(** [re.match(r'^\d{4}$', year)] on a directory entry. *)
Variable year_pattern : string → bool.

(** The source project: what [json.load(open(...))] finds at
    [project_path/<year>/database.json]. *)
Variable src : string → Split.aggregate.

(** [os.path.join(options.project_path, year, name)] *)
Definition entry_path (project_path year name : string) : string :=
  path_join (path_join project_path year) name.

(** The loop over [src_hash_map.items()] when the destination catalog
    exists: the paths queued and the paths printed. *)
Fixpoint queue_entries (project_path year : string)
  (dst_hash_map : gmap string string) (entries : list (string * string))
  (asset_list printed : list string) : list string * list string :=
  match entries with
  | [] => (asset_list, printed)
  | (hash, name) :: entries' =>
    if contains dst_hash_map hash
    then queue_entries project_path year dst_hash_map entries' asset_list
           (printed ++ [entry_path project_path year name])
    else queue_entries project_path year dst_hash_map entries'
           (asset_list ++ [entry_path project_path year name]) printed
  end.

(** The loop over [os.listdir(options.project_path)].  The destination
    catalog of a year is the file [get_database] reads for that year. *)
Fixpoint queue_years (project_path : string) (dst : gmap string stored)
  (listing : list string) (asset_list printed : list string)
  : list string * list string * option raised :=
  match listing with
  | [] => (asset_list, printed, None)
  | year :: listing' =>
    if negb (year_pattern year)
    then queue_years project_path dst listing' asset_list printed
    else
      match src year with
      | Split.NoFile => (asset_list, printed, Some FileNotFoundError)
      | Split.Malformed => (asset_list, printed, Some JSONDecodeError)
      | Split.Parsed _ src_hash_map =>
        match dst !! year with
        | Some Unreadable => (asset_list, printed, Some JSONDecodeError)
        | Some (Document dst_hash_map _) =>
          match src_hash_map with
          | None => (asset_list, printed, Some AttributeError)
          | Some entries =>
            let '(asset_list', printed') :=
              queue_entries project_path year (default ∅ dst_hash_map)
                entries asset_list printed in
            queue_years project_path dst listing' asset_list' printed'
          end
        | None =>
          match src_hash_map with
          | None => (asset_list, printed, Some AttributeError)
          | Some entries =>
            queue_years project_path dst listing'
              (asset_list
               ++ ((λ e, entry_path project_path year (snd e)) <$> entries))
              printed
          end
        end
      end
  end.

(** The command: the queue, [options.with_copy = True], then
    [import_assets].  It gives the printed paths and either the exception
    of the queueing or the run of [import_assets]. *)
Definition import_assets_from_project (options : ArgumentOptions)
  (project_path : string) (listing : list string) (s : run_state)
  : list string * (raised + run_state * result unit) :=
  match queue_years project_path (disk s) listing [] [] with
  | (asset_list, printed, None) =>
    (printed,
     inr (import_assets
            (Options (work_path options) (project_name options) true
               (with_date options)) asset_list s))
  | (_, printed, Some e) => (printed, inl e)
  end.

End project.

End Project.

(** ** The scanner and the repair of file times *)

Module Scanner.

Inductive outcome :=
| Done
| ValueError.

Section scanner.

(** [asset_pattern.search(name)] *)
Variable asset_pattern : string → bool.

(** [os.path.islink(path)] *)
Variable islink : string → bool.

(** The inner loop of [import_assets_from_external] over the names of one
    directory. *)
Fixpoint collect_files (walk_path : string) (file_name_list : list string)
  (asset_list : list string) : list string :=
  match file_name_list with
  | [] => asset_list
  | file_name :: rest =>
    let target_location := path_join walk_path file_name in
    if String.prefix "." file_name
    then collect_files walk_path rest asset_list
    else if negb (asset_pattern file_name) || islink target_location
    then collect_files walk_path rest asset_list
    else collect_files walk_path rest (asset_list ++ [target_location])
  end.

(** The loop over [os.walk(options.import_path)], given what the walk
    yields: each directory with the names of its files. *)
Definition collect (walk : list (string * list string)) : list string :=
  fold_left (λ asset_list w, collect_files (fst w) (snd w) asset_list) walk [].

(** [date_pattern.search(line)] *)
Variable date_pattern : string → bool.

(** [int(time.mktime(time.strptime(text, '%Y:%m:%d %H:%M:%S')))], or
    nothing when [strptime] raises. *)
Variable create_time : string → option Z.

(** [line[9:-1]] *)
Definition header_path (line : string) : string :=
  slice_to (slice_from line 9) (-1).

(** [exif_info[-20:-1]] *)
Definition date_text (exif_info : string) : string :=
  slice_to (slice_from exif_info (-20)) (-1).

(** The loop of [repair_asset_times] over the lines [readline] returns,
    with the [os.utime] calls made so far.  After a header whose next line
    is no date the buffer is sought back, so that line is read again. *)
Fixpoint repair_lines (lines : list string) (calls : list (string * Z))
  : list (string * Z) * outcome :=
  match lines with
  | [] => (calls, Done)
  | line :: rest =>
    if String.eqb line "" then (calls, Done)
    else if String.prefix "====" line then
      let file_path := header_path line in
      if negb (asset_pattern file_path) then repair_lines rest calls
      else
        match rest with
        | [] =>
          if negb (date_pattern "") then (calls, Done)
          else
            match create_time (date_text "") with
            | None => (calls, ValueError)
            | Some t => (calls ++ [(file_path, t)], Done)
            end
        | exif_info :: rest' =>
          if negb (date_pattern exif_info) then repair_lines rest calls
          else
            match create_time (date_text exif_info) with
            | None => (calls, ValueError)
            | Some t => repair_lines rest' (calls ++ [(file_path, t)])
            end
        end
    else repair_lines rest calls
  end.

(** The [os.utime] calls a plain pass over all adjacent lines would make:
    a header of an asset followed by a date line. *)
Fixpoint header_date_pairs (lines : list string) : list (string * Z) :=
  match lines with
  | [] => []
  | line :: rest =>
    match rest with
    | [] => []
    | exif_info :: _ =>
      if String.prefix "====" line && asset_pattern (header_path line)
         && date_pattern exif_info
      then
        match create_time (date_text exif_info) with
        | Some t => (header_path line, t) :: header_date_pairs rest
        | None => header_date_pairs rest
        end
      else header_date_pairs rest
    end
  end.

End scanner.

End Scanner.

(** ** Vocabulary of the project import *)

(** [p] is the path of an entry of the source HashIndex of a listed year
    directory, and the entry's fingerprint is ([present = true]) or is not
    ([present = false]) in the HashIndex that [get_database] would load
    for that year in the destination. *)
Definition source_entry (year_pattern : string → bool)
  (src : string → Split.aggregate) (project_path : string)
  (dst : gmap string stored) (listing : list string) (present : bool)
  (p : string) : Prop :=
  ∃ year fingerprint name entries index_map,
    year ∈ listing ∧ year_pattern year = true
    ∧ src year = Split.Parsed index_map (Some entries)
    ∧ (fingerprint, name) ∈ entries
    ∧ p = Project.entry_path project_path year name
    ∧ contains (hash (load dst year)) fingerprint = present.

(** A listed year directory whose catalogs stop the queueing. *)
Definition unusable_year (src : string → Split.aggregate)
  (dst : gmap string stored) (year : string) : Prop :=
  src year = Split.NoFile ∨ src year = Split.Malformed
  ∨ (∃ index_map, src year = Split.Parsed index_map None)
  ∨ dst !! year = Some Unreadable.

(** A source project with one year and two entries, one of them already
    in the destination. *)
Definition four_digits (year : string) : bool :=
  String.eqb year "2023" || String.eqb year "2022".

Definition other_project (year : string) : Split.aggregate :=
  if String.eqb year "2023"
  then Split.Parsed (Some [("202305", 3)])
         (Some [("f3b0c44298fc1c14", "202305_0001.JPG");
                ("0a4d55a8d778e502", "202305_0002.JPG")])
  else Split.NoFile.

(** ** Vocabulary of the scanner *)

(** A pattern for the examples: the names that end in a dot and one of
    JPG, MOV, MP4, CR2, HEIC, their letters in either case. *)
Definition upper (c : ascii) : ascii :=
  let n := nat_of_ascii c in
  if (97 <=? n)%nat && (n <=? 122)%nat then ascii_of_nat (n - 32) else c.

Fixpoint upper_string (s : string) : string :=
  match s with
  | EmptyString => EmptyString
  | String c s' => String (upper c) (upper_string s')
  end.

Definition is_camera_extension (ext : string) : bool :=
  existsb (String.eqb (upper_string ext)) ["JPG"; "MOV"; "MP4"; "CR2"; "HEIC"].

Fixpoint ascii_camera_pattern (name : string) : bool :=
  match name with
  | EmptyString => false
  | String c rest =>
    (Ascii.eqb c "." && is_camera_extension rest) || ascii_camera_pattern rest
  end.

Definition no_links (path : string) : bool := false.

(** One directory as [os.walk] yields it. *)
Definition camera_folder : list (string * list string) :=
  [("/in", ["IMG_0001.JPG"; ".DS_Store"; "notes.txt"; "IMG_0001.mov";
            ".hidden.jpg"])].

(** A line read from [exiftool] is usable when it is not empty and is not
    at once a header and a date line. *)
Definition plain_line (date_pattern : string → bool) (line : string) : Prop :=
  line ≠ "" ∧ (String.prefix "====" line && date_pattern line = false).

(** Stand-ins for the date pattern and for the conversion of a date in the
    example: a line that ends in a fixed time of day, and the length of the
    date text as its time. *)
Definition newline : string := String (ascii_of_nat 10) EmptyString.

Definition ends_with_time (line : string) : bool :=
  String.eqb (slice_from line (-9)) ("10:00:00" +:+ newline).

Definition toy_create_time (text : string) : option Z :=
  if String.eqb text "" then None else Some (len text).

Definition exiftool_lines : list string :=
  ["======== /in/IMG_0001.JPG" +:+ newline;
   "======== /in/IMG_0002.JPG" +:+ newline;
   "Create Date  : 2023:05:01 10:00:00" +:+ newline;
   "    1 directories scanned" +:+ newline].

(** ** Vocabulary of the catalog file *)

(** The catalog with two empty sections, as [get_database] makes it from
    [data = {}]. *)
Definition empty_document : CatalogFile.json :=
  CatalogFile.JObject
    (<[DATABASE_FIELD_NAME_INDEX := CatalogFile.JObject ∅]>
       (<[DATABASE_FIELD_NAME_HASH := CatalogFile.JObject ∅]> ∅)).

(** The members of a parsed object with an empty section put in for each
    of "hash" and "index" that it lacks. *)
Definition add_section (field_name : string)
  (members : gmap string CatalogFile.json) : gmap string CatalogFile.json :=
  if contains members field_name then members
  else <[field_name := CatalogFile.JObject ∅]> members.

Definition with_sections (members : gmap string CatalogFile.json)
  : CatalogFile.json :=
  CatalogFile.JObject
    (add_section DATABASE_FIELD_NAME_INDEX
       (add_section DATABASE_FIELD_NAME_HASH members)).

Definition is_object (data : CatalogFile.json) : bool :=
  match data with
  | CatalogFile.JObject _ => true
  | _ => false
  end.

(** A document that is not an object and still passes both
    [field_name not in data] tests: a string in which both names occur, or
    a list that has both names among its elements. *)
Definition names_both_sections (data : CatalogFile.json) : bool :=
  match data with
  | CatalogFile.JString s =>
    CatalogFile.occurs DATABASE_FIELD_NAME_HASH s
    && CatalogFile.occurs DATABASE_FIELD_NAME_INDEX s
  | CatalogFile.JArray elements =>
    existsb (CatalogFile.is_string DATABASE_FIELD_NAME_HASH) elements
    && existsb (CatalogFile.is_string DATABASE_FIELD_NAME_INDEX) elements
  | _ => false
  end.

(** What the claim that loading never raises would mean: whatever the
    catalog files are, the first load of a year returns. *)
Definition load_never_raises : Prop :=
  ∀ (disk : gmap string CatalogFile.catalog_file) (name : string),
    ∃ database' data,
      CatalogFile.get_database disk name false ∅ = (database', Ok data).

(** A project whose 2023 catalog file holds the JSON document [[]]. *)
Definition list_2023 : gmap string CatalogFile.catalog_file :=
  <["2023" := CatalogFile.Parsed (CatalogFile.JArray [])]> ∅.

(** A project whose 2023 catalog file cannot be parsed, and one whose 2023
    catalog has lost its "index" section. *)
Definition unparsable_2023 : gmap string CatalogFile.catalog_file :=
  <["2023" := CatalogFile.Unparsable]> ∅.

Definition hash_only_2023 : gmap string CatalogFile.catalog_file :=
  <["2023" :=
      CatalogFile.Parsed
        (CatalogFile.JObject
           (<["hash" :=
                CatalogFile.JObject
                  (<["f3b0c44298fc1c14" :=
                       CatalogFile.JString "202305_0001.JPG"]> ∅)]> ∅))]> ∅.

(** The catalogs and the catalog files of the run as JSON documents. *)
Definition encode_hash (h : gmap string string) : CatalogFile.json :=
  CatalogFile.JObject (CatalogFile.JString <$> h).

Definition encode_index (i : gmap string Z) : CatalogFile.json :=
  CatalogFile.JObject ((λ v, CatalogFile.JNumber (str v)) <$> i).

Definition encode_catalog (c : catalog) : CatalogFile.json :=
  CatalogFile.JObject
    (<[DATABASE_FIELD_NAME_INDEX := encode_index (index c)]>
       (<[DATABASE_FIELD_NAME_HASH := encode_hash (hash c)]> ∅)).

Definition encode_stored (d : stored) : CatalogFile.catalog_file :=
  match d with
  | Unreadable => CatalogFile.Unparsable
  | Document h i =>
    CatalogFile.Parsed
      (CatalogFile.JObject
         (from_option
            (λ i, <[DATABASE_FIELD_NAME_INDEX := encode_index i]>) id i
            (from_option
               (λ h, <[DATABASE_FIELD_NAME_HASH := encode_hash h]>) id h ∅)))
  end.

Definition encode_result (r : result catalog) : result CatalogFile.json :=
  match r with
  | Ok c => Ok (encode_catalog c)
  | Raise e => Raise e
  end.

(** ** Vocabulary of one placement *)


(** ** A clock for the examples *)

(** Every copy is made on 14 November 2023. *)
#[global] Instance november_clock : Clock :=
  λ _, (1699963200, StructTime 2023 11 14).
(** * Properties *)

(** ** The order of strings and of sort keys *)

Lemma ascii_compare_refl (a : ascii) : Ascii.compare a a = Eq.
Proof. unfold Ascii.compare. apply N.compare_refl. Qed.

Lemma ascii_compare_lt_trans (a b c : ascii) :
  Ascii.compare a b = Lt → Ascii.compare b c = Lt → Ascii.compare a c = Lt.
Proof. unfold Ascii.compare. rewrite !N.compare_lt_iff. apply N.lt_trans. Qed.

Lemma string_compare_refl (a : string) : String.compare a a = Eq.
Proof. induction a as [|x a IH]; simpl; [done|]. by rewrite ascii_compare_refl. Qed.

Lemma string_compare_lt_trans (a b c : string) :
  String.compare a b = Lt → String.compare b c = Lt → String.compare a c = Lt.
Proof.
  revert b c. induction a as [|x a IH]; intros [|y b] [|z c]; simpl; try done.
  destruct (Ascii.compare x y) eqn:Hxy; try done;
    destruct (Ascii.compare y z) eqn:Hyz; try done.
  - apply Ascii.compare_eq_iff in Hxy, Hyz. subst.
    rewrite ascii_compare_refl. apply IH.
  - apply Ascii.compare_eq_iff in Hxy. subst. by rewrite Hyz.
  - apply Ascii.compare_eq_iff in Hyz. subst. by rewrite Hxy.
  - by rewrite (ascii_compare_lt_trans x y z).
Qed.

Lemma string_compare_lt_gt (a b : string) :
  String.compare a b = Lt ↔ String.compare b a = Gt.
Proof.
  rewrite (String.compare_antisym a b).
  destruct (String.compare b a); simpl; split; congruence.
Qed.

Lemma cmp_lt_true (a b : item) :
  target_location a ≠ target_location b →
  cmp_to_key_lt camera_roll_sort a b = true → sort_key_lt a b.
Proof.
  intros Hne. unfold cmp_to_key_lt, camera_roll_sort, sort_key_lt, str_gt.
  destruct (Z.eqb_spec (timestamp a) (timestamp b)) as [Heq|Hts]; simpl.
  - destruct (String.compare (target_location a) (target_location b)) eqn:Hc;
      simpl; intros ?; try done.
    + by apply String.compare_eq_iff in Hc.
    + by right.
  - destruct (Z.gtb_spec (timestamp a) (timestamp b)); simpl; intros ?;
      [done|]. left. lia.
Qed.

Lemma cmp_lt_false (a b : item) :
  target_location a ≠ target_location b →
  cmp_to_key_lt camera_roll_sort a b = false → sort_key_lt b a.
Proof.
  intros Hne. unfold cmp_to_key_lt, camera_roll_sort, sort_key_lt, str_gt.
  destruct (Z.eqb_spec (timestamp a) (timestamp b)) as [Heq|Hts]; simpl.
  - destruct (String.compare (target_location a) (target_location b)) eqn:Hc;
      simpl; intros ?; try done.
    right. split; [done|]. by apply string_compare_lt_gt.
  - destruct (Z.gtb_spec (timestamp a) (timestamp b)); simpl; intros ?;
      [|done]. left. lia.
Qed.

Lemma sort_key_lt_trans (a b c : item) :
  sort_key_lt a b → sort_key_lt b c → sort_key_lt a c.
Proof.
  unfold sort_key_lt. intros [?|[? Hab]] [?|[? Hbc]]; try (left; lia).
  right. split; [lia|]. eapply string_compare_lt_trans; eauto.
Qed.

Lemma sort_key_lt_asym (a b : item) : sort_key_lt a b → sort_key_lt b a → False.
Proof.
  unfold sort_key_lt. intros [?|[? Hab]] [?|[? Hba]]; try lia.
  apply string_compare_lt_gt in Hba. congruence.
Qed.

(** ** The insertion sort *)

Lemma insert_sorted_perm {A} (lt : A → A → bool) (x : A) (l : list A) :
  insert_sorted lt x l ≡ₚ x :: l.
Proof.
  induction l as [|y l IH]; simpl; [done|].
  destruct (lt x y); [done|]. rewrite IH. apply Permutation_swap.
Qed.

Lemma fold_insert_perm {A} (lt : A → A → bool) (l acc : list A) :
  fold_left (λ acc x, insert_sorted lt x acc) l acc ≡ₚ acc ++ l.
Proof.
  revert acc. induction l as [|x l IH]; intros acc; simpl.
  - by rewrite app_nil_r.
  - rewrite IH, insert_sorted_perm. simpl. apply Permutation_middle.
Qed.

Lemma list_sort_perm {A} (lt : A → A → bool) (l : list A) :
  list_sort lt l ≡ₚ l.
Proof. unfold list_sort. by rewrite fold_insert_perm. Qed.

Lemma insert_sorted_sorted (x : item) (l : list item) :
  StronglySorted sort_key_lt l →
  Forall (λ y, target_location y ≠ target_location x) l →
  StronglySorted sort_key_lt
    (insert_sorted (cmp_to_key_lt camera_roll_sort) x l).
Proof.
  induction 1 as [|y l Hl IH Hy]; intros Hne; simpl.
  - repeat constructor.
  - apply Forall_cons in Hne as [Hyx Hne].
    destruct (cmp_to_key_lt camera_roll_sort x y) eqn:Hlt.
    + apply cmp_lt_true in Hlt; [|done].
      constructor; [by constructor|]. constructor; [done|].
      eapply Forall_impl; [exact Hy|]. intros z Hz.
      by apply (sort_key_lt_trans x y z).
    + apply cmp_lt_false in Hlt; [|done].
      constructor; [by apply IH|].
      rewrite insert_sorted_perm. by constructor.
Qed.

Lemma fold_insert_sorted (l acc : list item) :
  StronglySorted sort_key_lt acc →
  NoDup (target_location <$> (acc ++ l)) →
  StronglySorted sort_key_lt
    (fold_left (λ acc x, insert_sorted (cmp_to_key_lt camera_roll_sort) x acc)
       l acc).
Proof.
  revert acc. induction l as [|x l IH]; intros acc Hacc Hnd; simpl; [done|].
  apply IH.
  - apply insert_sorted_sorted; [done|].
    rewrite fmap_app, fmap_cons in Hnd.
    apply NoDup_app in Hnd as (_ & Hdisj & _).
    apply Forall_forall. intros y Hy Heq.
    apply (Hdisj (target_location y)).
    + apply list_elem_of_fmap. by exists y.
    + rewrite Heq. left.
  - assert (insert_sorted (cmp_to_key_lt camera_roll_sort) x acc ++ l
            ≡ₚ acc ++ x :: l) as Hp.
    { rewrite insert_sorted_perm. simpl. apply Permutation_middle. }
    by rewrite Hp.
Qed.

Lemma list_sort_sorted (l : list item) :
  NoDup (target_location <$> l) →
  StronglySorted sort_key_lt (list_sort (cmp_to_key_lt camera_roll_sort) l).
Proof. intros. apply fold_insert_sorted; [constructor|done]. Qed.

Lemma list_sort_order_independent (l l' : list item) :
  NoDup (target_location <$> l) → l ≡ₚ l' →
  list_sort (cmp_to_key_lt camera_roll_sort) l
  = list_sort (cmp_to_key_lt camera_roll_sort) l'.
Proof.
  intros Hnd Hp.
  apply (StronglySorted_unique_strong sort_key_lt).
  - intros x y _ _ Hxy Hyx. by destruct (sort_key_lt_asym x y).
  - by apply list_sort_sorted.
  - apply list_sort_sorted. by rewrite <-Hp.
  - by rewrite !list_sort_perm.
Qed.

(** ** The catalog store *)

Lemma get_database_cached (name : string) (s : run_state) :
  get_database name false s = (cached name s, Ok (view s name)).
Proof.
  unfold get_database, cached, view. by destruct (database s !! name).
Qed.

Lemma cached_fields (name : string) (s : run_state) :
  increment_list (cached name s) = increment_list s
  ∧ accept_map (cached name s) = accept_map s
  ∧ live_map (cached name s) = live_map s
  ∧ files (cached name s) = files s
  ∧ disk (cached name s) = disk s
  ∧ ops (cached name s) = ops s
  ∧ stdout (cached name s) = stdout s
  ∧ allocated (cached name s) = allocated s.
Proof. unfold cached. by destruct (database s !! name). Qed.

Lemma cached_lookup (name : string) (s : run_state) :
  database (cached name s) !! name = Some (view s name).
Proof.
  unfold cached, view. destruct (database s !! name) eqn:H; [done|].
  simpl. by rewrite lookup_insert_eq.
Qed.

Lemma cached_lookup_ne (name name' : string) (s : run_state) :
  name ≠ name' → database (cached name s) !! name' = database s !! name'.
Proof.
  intros Hne. unfold cached. destruct (database s !! name) eqn:Hl; [done|].
  simpl. by rewrite lookup_insert_ne.
Qed.

Lemma view_cached (name name' : string) (s : run_state) :
  view (cached name s) name' = view s name'.
Proof.
  unfold view at 1. destruct (decide (name = name')) as [->|Hne].
  - by rewrite cached_lookup.
  - rewrite cached_lookup_ne by done.
    destruct (cached_fields name s) as (_ & _ & _ & _ & -> & _). done.
Qed.

(** ** The scan *)

Lemma scan_asset_spec (p : string) (s : run_state) :
  scan_asset p s =
  match files s !! p with
  | None => (s, Raise FileNotFoundError)
  | Some st =>
    let name := str (tm_year (st_mtime st)) in
    let d := md5_hexdigest st in
    if contains (hash (view s name)) d || contains (accept_map s) d
    then (print (PrintDup d p) (cached name s), Ok tt)
    else (set_increment_list
            (λ l, l ++ [Item (st_birthtime st) (st_mtime st) d p])
            (set_accept_map <[d := p]> (cached name s)), Ok tt)
  end.
Proof.
  unfold scan_asset, bind, gets. destruct (files s !! p) as [st|]; [|done].
  rewrite get_database_cached. simpl.
  destruct (cached_fields (str (tm_year (st_mtime st))) s) as (_ & -> & _).
  by destruct (_ || _).
Qed.

Lemma for_each_cons {A} (body : A → M unit) (x : A) (l : list A) (s : run_state) :
  for_each body (x :: l) s =
  match body x s with
  | (s', Ok _) => for_each body l s'
  | (s', Raise e) => (s', Raise e)
  end.
Proof. done. Qed.

Lemma for_each_inv {A} (P : run_state → Prop) (body : A → M unit) (l : list A) :
  (∀ x s s' r, P s → body x s = (s', r) → P s') →
  ∀ s s' r, P s → for_each body l s = (s', r) → P s'.
Proof.
  intros Hbody. induction l as [|x l IH]; intros s s' r HP Hrun.
  - by inversion Hrun; subst.
  - rewrite for_each_cons in Hrun.
    destruct (body x s) as [s1 [[]|e]] eqn:Hx.
    + eapply IH; [|exact Hrun]. eapply Hbody; eauto.
    + inversion Hrun; subst. eapply Hbody; eauto.
Qed.

Lemma scan_asset_same_world (s0 : run_state) (p : string) (s s' : run_state)
  (r : result unit) :
  same_world s0 s → scan_asset p s = (s', r) → same_world s0 s'.
Proof.
  unfold same_world. intros Hs. rewrite scan_asset_spec.
  destruct (files s !! p) as [st|]; [|by intros [= <- <-]].
  destruct (cached_fields (str (tm_year (st_mtime st))) s)
    as (_ & _ & Hl & Hf & Hd & Ho & _ & Ha).
  simpl. destruct (_ || _); intros [= <- <-]; simpl;
    by rewrite Hl, Hf, Hd, Ho, Ha.
Qed.

Lemma scan_same_world (l : list string) (s s' : run_state) (r : result unit) :
  for_each scan_asset l s = (s', r) → same_world s s'.
Proof.
  apply (for_each_inv (same_world s)).
  - intros. by eapply scan_asset_same_world.
  - by repeat split.
Qed.

Lemma contains_insert {V} (m : gmap string V) (k k' : string) (v : V) :
  contains (<[k := v]> m) k' = if decide (k = k') then true else contains m k'.
Proof.
  unfold contains. rewrite lookup_insert. by destruct (decide (k = k')).
Qed.

Lemma scan_asset_accepted_inv (p : string) (s s' : run_state) (r : result unit) :
  accepted_inv s → scan_asset p s = (s', r) → accepted_inv s'.
Proof.
  unfold accepted_inv. intros [Hnd Hacc]. rewrite scan_asset_spec.
  destruct (files s !! p) as [st|] eqn:Hst; [|by intros [= <- <-]].
  destruct (cached_fields (str (tm_year (st_mtime st))) s)
    as (Hi & Ha & _ & Hf & _).
  simpl. destruct (contains (hash _) _ || contains (accept_map s) _) eqn:Hdup;
    intros [= <- <-]; simpl; rewrite ?Hi, ?Ha, ?Hf; [done|].
  apply orb_false_iff in Hdup as [_ Hdup].
  split.
  - rewrite fmap_app. simpl. apply NoDup_app. split; [done|]. split.
    + intros d Hd Hd'. apply list_elem_of_fmap in Hd as (it & -> & Hit).
      apply list_elem_of_singleton in Hd'.
      destruct (Hacc it Hit) as [Hc _]. congruence.
    + apply NoDup_singleton.
  - intros it Hit. rewrite contains_insert.
    apply elem_of_app in Hit as [Hit|Hit].
    + destruct (Hacc it Hit) as [Hc Hm]. split; [|done].
      by destruct (decide _).
    + apply list_elem_of_singleton in Hit. subst it. simpl.
      rewrite Hst. split; [|done]. by destruct (decide _).
Qed.

Lemma survivors_NoDup (fs : gmap string file_stat) (d : gmap string stored)
  (asset_list : list string) :
  NoDup (target_location <$> survivors fs d asset_list).
Proof.
  unfold survivors.
  destruct (for_each scan_asset asset_list (init_state fs d)) as [s' r] eqn:Hrun.
  pose proof (scan_same_world _ _ _ _ Hrun) as (_ & Hf & _).
  assert (accepted_inv s') as [Hnd Hacc].
  { eapply (for_each_inv accepted_inv); [|..|exact Hrun].
    - intros. by eapply scan_asset_accepted_inv.
    - split; [constructor|]. intros it Hit. by apply elem_of_nil in Hit. }
  simpl. apply (NoDup_fmap_1 (λ p, md5_hexdigest <$> files s' !! p)).
  assert ((λ p, md5_hexdigest <$> files s' !! p)
            <$> (target_location <$> increment_list s')
          = Some <$> (digest <$> increment_list s')) as ->.
  { rewrite <-!list_fmap_compose. apply list_fmap_ext.
    intros i it Hit. simpl. apply Hacc. by eapply list_elem_of_lookup_2. }
  by apply (NoDup_fmap_2 Some).
Qed.

(** ** C2: the order of the survivors *)

(** C2, as stated, fails: two accepted files with the same capture
    timestamp come out in the order of their paths although their
    fingerprints are in the opposite order. *)
Lemma C2_counterexample :
  ¬ fingerprint_ordered
      (ordered same_second_files ∅ ["/in/IMG_0001.JPG"; "/in/IMG_0002.JPG"]).
Proof.
  intros H.
  specialize (H 0%nat 1%nat
    (Item 1682899200 (StructTime 2023 5 1) "f3b0c44298fc1c14" "/in/IMG_0001.JPG")
    (Item 1682899200 (StructTime 2023 5 1) "0a4d55a8d778e502" "/in/IMG_0002.JPG")).
  vm_compute in H. by specialize (H eq_refl eq_refl (le_n 1) eq_refl).
Qed.

(** C2, amended: the sort orders the accepted assets by ascending
    (timestamp, source path); equal timestamps are separated by the path,
    not by the fingerprint.  The sorted list is a rearrangement of the
    survivors that depends only on which assets were accepted, not on the
    order in which they were discovered. *)
Theorem C2_order_by_timestamp_then_path (fs : gmap string file_stat)
  (d : gmap string stored) (asset_list asset_list' : list string) :
  survivors fs d asset_list ≡ₚ survivors fs d asset_list' →
  ordered fs d asset_list = ordered fs d asset_list'
  ∧ StronglySorted sort_key_lt (ordered fs d asset_list)
  ∧ ordered fs d asset_list ≡ₚ survivors fs d asset_list.
Proof.
  intros Hp. unfold ordered. split; [|split].
  - apply list_sort_order_independent; [apply survivors_NoDup|done].
  - apply list_sort_sorted, survivors_NoDup.
  - apply list_sort_perm.
Qed.

Lemma C2_order_witness :
  ordered same_second_files ∅ ["/in/IMG_0002.JPG"; "/in/IMG_0001.JPG"]
  = ordered same_second_files ∅ ["/in/IMG_0001.JPG"; "/in/IMG_0002.JPG"]
  ∧ StronglySorted sort_key_lt
      (ordered same_second_files ∅ ["/in/IMG_0002.JPG"; "/in/IMG_0001.JPG"])
  ∧ ordered same_second_files ∅ ["/in/IMG_0002.JPG"; "/in/IMG_0001.JPG"]
    ≡ₚ survivors same_second_files ∅ ["/in/IMG_0002.JPG"; "/in/IMG_0001.JPG"].
Proof.
  apply (C2_order_by_timestamp_then_path same_second_files ∅
           ["/in/IMG_0002.JPG"; "/in/IMG_0001.JPG"]
           ["/in/IMG_0001.JPG"; "/in/IMG_0002.JPG"]).
  vm_compute. apply perm_swap.
Defined.

(** ** C6: loading a catalog *)

(** On the catalog files of the run a first [get_database(name)] does not
    raise.  It returns the stored object, an absent section read as empty;
    a missing file and a file that cannot be read both give the empty
    catalog.  The result is cached under [name], and from then on
    [get_database(name)] returns the cached catalog without looking at the
    disk again. *)
Lemma get_database_of_stored (name : string) (s : run_state) :
  database s !! name = None →
  ∃ data s',
    get_database name false s = (s', Ok data)
    ∧ (∀ h i, disk s !! name = Some (Document h i) →
         data = Catalog (default ∅ h) (default ∅ i))
    ∧ (disk s !! name = None → data = Catalog ∅ ∅)
    ∧ (disk s !! name = Some Unreadable → data = Catalog ∅ ∅)
    ∧ database s' !! name = Some data
    ∧ (∀ name', name' ≠ name → database s' !! name' = database s !! name')
    ∧ (∀ s2 data2, database s2 !! name = Some data2 →
         get_database name false s2 = (s2, Ok data2)).
Proof.
  intros Hnone. exists (view s name), (cached name s).
  split; [apply get_database_cached|].
  unfold view. rewrite Hnone. unfold load.
  repeat split.
  - by intros h i ->.
  - by intros ->.
  - by intros ->.
  - rewrite cached_lookup. unfold view. by rewrite Hnone.
  - intros name' Hne. by apply cached_lookup_ne.
  - intros s2 data2 H2. unfold get_database. by rewrite H2.
Qed.

(** The two defaults on a parsed object: each missing section is put in,
    nothing else changes, and nothing is raised. *)
Lemma default_fields_object (members : gmap string CatalogFile.json) :
  CatalogFile.default_fields (CatalogFile.JObject members)
  = Ok (with_sections members).
Proof.
  unfold CatalogFile.default_fields, CatalogFile.default_field, with_sections,
    add_section.
  simpl. destruct (contains members DATABASE_FIELD_NAME_HASH); simpl.
  - by destruct (contains members DATABASE_FIELD_NAME_INDEX).
  - by destruct (contains (<[DATABASE_FIELD_NAME_HASH := _]> members)
                   DATABASE_FIELD_NAME_INDEX).
Qed.

(** The two defaults on any other document: [TypeError], from the
    membership test or from the assignment, unless both tests find the
    name. *)
Lemma default_fields_other (data : CatalogFile.json) :
  is_object data = false →
  CatalogFile.default_fields data
  = if names_both_sections data then Ok data else Raise TypeError.
Proof.
  unfold CatalogFile.default_fields, CatalogFile.default_field.
  destruct data as [|b|literal|s|elements|members]; simpl; try done.
  - destruct (CatalogFile.occurs DATABASE_FIELD_NAME_HASH s); simpl; [|done].
    by destruct (CatalogFile.occurs DATABASE_FIELD_NAME_INDEX s).
  - destruct (existsb (CatalogFile.is_string DATABASE_FIELD_NAME_HASH) elements);
      simpl; [|done].
    by destruct (existsb (CatalogFile.is_string DATABASE_FIELD_NAME_INDEX)
                   elements).
Qed.

(** What [with_sections] returns has every member of the parsed object as
    it was, and an empty "hash" and "index" where the object had none. *)
Lemma with_sections_lookup (members : gmap string CatalogFile.json)
  (k : string) :
  ∃ members',
    with_sections members = CatalogFile.JObject members'
    ∧ members' !! k
      = match members !! k with
        | Some v => Some v
        | None =>
          if bool_decide (k = DATABASE_FIELD_NAME_HASH
                          ∨ k = DATABASE_FIELD_NAME_INDEX)
          then Some (CatalogFile.JObject ∅) else None
        end.
Proof.
  eexists. split; [reflexivity|].
  unfold add_section, contains.
  destruct (members !! DATABASE_FIELD_NAME_HASH) as [vh|] eqn:Hh.
  - destruct (members !! DATABASE_FIELD_NAME_INDEX) as [vi|] eqn:Hi.
    + destruct (members !! k) eqn:Hk; [done|].
      rewrite bool_decide_eq_false_2; [done|]. intros [->| ->]; congruence.
    + destruct (decide (k = DATABASE_FIELD_NAME_INDEX)) as [->|Hne].
      * rewrite lookup_insert_eq, Hi. by rewrite bool_decide_eq_true_2 by auto.
      * rewrite lookup_insert_ne by done.
        destruct (members !! k) eqn:Hk; [done|].
        rewrite bool_decide_eq_false_2; [done|]. intros [->| ->]; congruence.
  - assert (<[DATABASE_FIELD_NAME_HASH := CatalogFile.JObject ∅]> members
              !! DATABASE_FIELD_NAME_INDEX = members !! DATABASE_FIELD_NAME_INDEX)
      as -> by by rewrite lookup_insert_ne.
    destruct (decide (k = DATABASE_FIELD_NAME_HASH)) as [->|Hneh].
    + destruct (members !! DATABASE_FIELD_NAME_INDEX);
        rewrite ?(lookup_insert_ne _ DATABASE_FIELD_NAME_INDEX) by done;
        rewrite lookup_insert_eq, Hh; by rewrite bool_decide_eq_true_2 by auto.
    + destruct (members !! DATABASE_FIELD_NAME_INDEX) as [vi|] eqn:Hi.
      * rewrite lookup_insert_ne by done.
        destruct (members !! k) eqn:Hk; [done|].
        rewrite bool_decide_eq_false_2; [done|]. intros [->| ->]; congruence.
      * destruct (decide (k = DATABASE_FIELD_NAME_INDEX)) as [->|Hnei].
        -- rewrite lookup_insert_eq, Hi. by rewrite bool_decide_eq_true_2 by auto.
        -- rewrite !lookup_insert_ne by done.
           destruct (members !! k) eqn:Hk; [done|].
           rewrite bool_decide_eq_false_2; [done|]. intros [->| ->]; congruence.
Qed.

(** On the catalog files of [stored] the two defaults give the catalog
    that [load] reads. *)
Lemma encode_load (d : gmap string stored) (name : string) :
  CatalogFile.default_fields
    match (encode_stored <$> d) !! name with
    | Some (CatalogFile.Parsed data) => data
    | Some CatalogFile.Unparsable => CatalogFile.JObject ∅
    | None => CatalogFile.JObject ∅
    end
  = Ok (encode_catalog (load d name)).
Proof.
  rewrite lookup_fmap. unfold load.
  destruct (d !! name) as [[|[h|] [i|]]|]; simpl;
    rewrite default_fields_object; f_equal.
Qed.

(** The [get_database] of the run is [CatalogFile.get_database] on the
    catalog files of [stored]: read as JSON documents, the cache it leaves
    and the catalog it returns are the same. *)
Lemma get_database_refines (name : string) (reload_from_disk : bool)
  (s : run_state) :
  CatalogFile.get_database (encode_stored <$> disk s) name reload_from_disk
    (encode_catalog <$> database s)
  = (encode_catalog <$> database (fst (get_database name reload_from_disk s)),
     encode_result (snd (get_database name reload_from_disk s))).
Proof.
  unfold CatalogFile.get_database, get_database. cbv zeta.
  rewrite encode_load, lookup_fmap.
  destruct (database s !! name) as [c|]; simpl.
  - destruct reload_from_disk; simpl; [|done]. by rewrite fmap_insert.
  - by rewrite fmap_insert.
Qed.

(** C6, as stated, fails: a catalog file that holds the JSON document
    [[]] is read without an exception inside the [try], and the assignment
    [data[field_name] = {}] after the [try] raises [TypeError]. *)
Lemma C6_counterexample : ¬ load_never_raises.
Proof.
  intros H. destruct (H list_2023 "2023") as (database' & data & Hload).
  vm_compute in Hload. discriminate Hload.
Qed.

(** C6, amended: a first [get_database(name)] returns the empty catalog
    when the file is missing or cannot be opened or parsed, and the parsed
    document, with an empty section put in for each of "hash" and "index"
    that it lacks, when the file holds a JSON object; what it returns is
    stored in the cache under [name].  When the file holds any other JSON
    document it raises [TypeError] and caches nothing, unless the document
    is a string or a list in which both names occur, which is returned and
    cached as it is.  Once a year is cached, [get_database(name)] returns
    the cached object whatever the disk holds. *)
Theorem C6_get_database_by_document
  (disk : gmap string CatalogFile.catalog_file) (name : string)
  (database : gmap string CatalogFile.json) :
  database !! name = None →
  (disk !! name = None ∨ disk !! name = Some CatalogFile.Unparsable →
     CatalogFile.get_database disk name false database
     = (<[name := empty_document]> database, Ok empty_document))
  ∧ (∀ members,
       disk !! name = Some (CatalogFile.Parsed (CatalogFile.JObject members)) →
       CatalogFile.get_database disk name false database
       = (<[name := with_sections members]> database,
          Ok (with_sections members)))
  ∧ (∀ data,
       disk !! name = Some (CatalogFile.Parsed data) → is_object data = false →
       CatalogFile.get_database disk name false database
       = if names_both_sections data
         then (<[name := data]> database, Ok data)
         else (database, Raise TypeError))
  ∧ (∀ disk2 database2 data2,
       database2 !! name = Some data2 →
       CatalogFile.get_database disk2 name false database2
       = (database2, Ok data2)).
Proof.
  intros Hnone. unfold CatalogFile.get_database. rewrite Hnone.
  repeat split.
  - by intros [->| ->].
  - intros members ->. by rewrite default_fields_object.
  - intros data -> Hdata. rewrite default_fields_other by done.
    by destruct (names_both_sections data).
  - intros disk2 database2 data2 ->. done.
Qed.

Lemma C6_get_database_witness :
  CatalogFile.get_database unparsable_2023 "2023" false ∅
  = (<["2023" := empty_document]> ∅, Ok empty_document)
  ∧ CatalogFile.get_database hash_only_2023 "2023" false ∅
    = (<["2023" :=
           CatalogFile.JObject
             (<["index" := CatalogFile.JObject ∅]>
                (<["hash" :=
                     CatalogFile.JObject
                       (<["f3b0c44298fc1c14" :=
                            CatalogFile.JString "202305_0001.JPG"]> ∅)]> ∅))]>
         ∅,
       Ok (CatalogFile.JObject
             (<["index" := CatalogFile.JObject ∅]>
                (<["hash" :=
                     CatalogFile.JObject
                       (<["f3b0c44298fc1c14" :=
                            CatalogFile.JString "202305_0001.JPG"]> ∅)]> ∅))))
  ∧ CatalogFile.get_database list_2023 "2023" false ∅ = (∅, Raise TypeError)
  ∧ CatalogFile.get_database list_2023 "2023" false
      (<["2023" := empty_document]> ∅)
    = (<["2023" := empty_document]> ∅, Ok empty_document).
Proof.
  destruct (C6_get_database_by_document unparsable_2023 "2023" ∅)
    as (Hbad & _ & _ & Hcached); [reflexivity|].
  destruct (C6_get_database_by_document hash_only_2023 "2023" ∅)
    as (_ & Hobject & _ & _); [reflexivity|].
  destruct (C6_get_database_by_document list_2023 "2023" ∅)
    as (_ & _ & Hlist & _); [reflexivity|].
  split; [apply Hbad; by right|].
  split; [exact (Hobject _ eq_refl)|].
  split; [exact (Hlist (CatalogFile.JArray []) eq_refl eq_refl)|].
  apply Hcached. reflexivity.
Defined.

(** ** C4: duplicates are skipped *)

(** C4: when the fingerprint of the file at [target_location] is in the
    HashIndex of the catalog of its year, or was accepted earlier in the
    run, the turn of the scan prints the duplicate report and nothing else
    happens: the survivor list and [accept_map] are as before, no file is
    touched, no operation is recorded, and the loop goes on with the
    remaining paths. *)
Theorem C4_duplicate_skipped (target_location : string) (rest : list string)
  (st : file_stat) (s : run_state) :
  files s !! target_location = Some st →
  contains (hash (view s (str (tm_year (st_mtime st))))) (md5_hexdigest st)
    = true
  ∨ contains (accept_map s) (md5_hexdigest st) = true →
  ∃ s',
    scan_asset target_location s = (s', Ok tt)
    ∧ stdout s' = stdout s ++ [PrintDup (md5_hexdigest st) target_location]
    ∧ increment_list s' = increment_list s
    ∧ accept_map s' = accept_map s
    ∧ files s' = files s
    ∧ ops s' = ops s
    ∧ disk s' = disk s
    ∧ (∀ name, hash (view s' name) = hash (view s name))
    ∧ for_each scan_asset (target_location :: rest) s
      = for_each scan_asset rest s'.
Proof.
  intros Hst Hdup.
  exists (print (PrintDup (md5_hexdigest st) target_location)
            (cached (str (tm_year (st_mtime st))) s)).
  assert (scan_asset target_location s
          = (print (PrintDup (md5_hexdigest st) target_location)
               (cached (str (tm_year (st_mtime st))) s), Ok tt)) as Hscan.
  { rewrite scan_asset_spec, Hst. simpl.
    destruct Hdup as [-> | ->]; [done|]. by rewrite orb_true_r. }
  destruct (cached_fields (str (tm_year (st_mtime st))) s)
    as (Hi & Ha & _ & Hf & Hd & Ho & Hout & _).
  split; [done|]. split; [simpl; by rewrite Hout|].
  do 5 (split; [done|]). split.
  - intros name. rewrite <-(view_cached (str (tm_year (st_mtime st))) name s).
    done.
  - by rewrite for_each_cons, Hscan.
Qed.

Lemma C4_duplicate_witness :
  ∃ s',
    scan_asset "/in/IMG_0001.JPG" (init_state reimported_files catalog_2023)
      = (s', Ok tt)
    ∧ stdout s' = [PrintDup "f3b0c44298fc1c14" "/in/IMG_0001.JPG"]
    ∧ increment_list s' = []
    ∧ accept_map s' = ∅
    ∧ files s' = reimported_files
    ∧ ops s' = []
    ∧ disk s' = catalog_2023
    ∧ (∀ name, hash (view s' name)
               = hash (view (init_state reimported_files catalog_2023) name))
    ∧ for_each scan_asset ["/in/IMG_0001.JPG"]
        (init_state reimported_files catalog_2023)
      = for_each scan_asset [] s'.
Proof.
  apply (C4_duplicate_skipped "/in/IMG_0001.JPG" []
           (FileStat 1682899200 (StructTime 2023 5 1) "f3b0c44298fc1c14")
           (init_state reimported_files catalog_2023)).
  - reflexivity.
  - left. vm_compute. reflexivity.
Defined.

(** ** The sequence number of an item *)

Lemma view_alter (name name' : string) (g : catalog → catalog) (s : run_state) :
  view (set_database (alter g name) s) name'
  = if decide (name = name')
    then match database s !! name with Some d => g d | None => view s name end
    else view s name'.
Proof.
  unfold view. simpl. destruct (decide (name = name')) as [<-|Hne].
  - rewrite lookup_alter_eq. by destruct (database s !! name).
  - by rewrite lookup_alter_ne.
Qed.

Lemma view_prepared (it : item) (s : run_state) (name' : string) :
  view (prepared it s) name'
  = if decide (database_name_of it = name')
    then (if contains (index (view s name')) (label_of it) then view s name'
          else Catalog (hash (view s name'))
                 (<[label_of it := 1]> (index (view s name'))))
    else view s name'.
Proof.
  unfold prepared.
  destruct (contains (index (view s (database_name_of it))) (label_of it))
    eqn:Hc.
  - rewrite view_cached. destruct (decide _) as [<-|]; [by rewrite Hc|done].
  - rewrite view_alter, cached_lookup, view_cached.
    destruct (decide _) as [<-|]; [by rewrite Hc|done].
Qed.

Lemma prepared_lookup (it : item) (s : run_state) :
  database (prepared it s) !! database_name_of it
  = Some (view (prepared it s) (database_name_of it)).
Proof.
  unfold view. destruct (database (prepared it s) !! database_name_of it) eqn:H;
    [done|]. exfalso. revert H. unfold prepared.
  destruct (contains _ _); simpl.
  - by rewrite cached_lookup.
  - by rewrite lookup_alter_eq, cached_lookup.
Qed.

Lemma counter_prepared (it : item) (s : run_state) (name label : string) :
  counter (prepared it s) name label = counter s name label.
Proof.
  unfold counter. rewrite view_prepared.
  destruct (decide _) as [<-|]; [|done].
  unfold contains.
  destruct (index (view s (database_name_of it)) !! label_of it) eqn:Hl;
    [done|]. simpl. rewrite lookup_insert.
  destruct (decide (label_of it = label)) as [<-|]; [|done]. by rewrite Hl.
Qed.

Lemma prepared_counter_lookup (it : item) (s : run_state) :
  (database (prepared it s) !! database_name_of it
     ≫= λ d, index d !! label_of it)
  = Some (counter s (database_name_of it) (label_of it)).
Proof.
  rewrite prepared_lookup. simpl. rewrite view_prepared.
  rewrite decide_True by done. unfold counter, contains.
  destruct (index (view s (database_name_of it)) !! label_of it) eqn:Hl.
  - by rewrite Hl.
  - simpl. by rewrite lookup_insert_eq.
Qed.

Lemma prepared_fields (it : item) (s : run_state) :
  increment_list (prepared it s) = increment_list s
  ∧ accept_map (prepared it s) = accept_map s
  ∧ live_map (prepared it s) = live_map s
  ∧ files (prepared it s) = files s
  ∧ disk (prepared it s) = disk s
  ∧ ops (prepared it s) = ops s
  ∧ stdout (prepared it s) = stdout s
  ∧ allocated (prepared it s) = allocated s.
Proof.
  unfold prepared. destruct (contains _ _); simpl;
    apply (cached_fields (database_name_of it) s).
Qed.

Lemma assign_sequence_spec (it : item) (s : run_state) :
  assign_sequence it s =
  match live_map s !! common_path_of it with
  | None => (prepared it s, Raise TypeError)
  | Some (sequence, reference_count) =>
    if (if reference_count >=? 2 then 0 else sequence) =? 0
    then (allocate it s, Ok (counter s (database_name_of it) (label_of it)))
    else (set_live_map
            <[common_path_of it := (sequence, reference_count + 1)]>
            (prepared it s), Ok sequence)
  end.
Proof.
  unfold assign_sequence, bind. rewrite get_database_cached.
  rewrite get_database_cached.
  assert (cached (database_name_of it) (cached (database_name_of it) s)
          = cached (database_name_of it) s) as ->.
  { unfold cached at 1. by rewrite cached_lookup. }
  assert ((if contains (index (view s (database_name_of it))) (label_of it)
           then ret tt else put_index (database_name_of it) (label_of it) 1)
            (cached (database_name_of it) s) = (prepared it s, Ok tt)) as ->.
  { unfold prepared. by destruct (contains _ _). }
  unfold gets.
  destruct (prepared_fields it s) as (_ & _ & -> & _).
  destruct (live_map s !! common_path_of it) as [[sequence rc]|]; [|done].
  destruct (rc >=? 2); simpl.
  - by rewrite prepared_counter_lookup.
  - destruct (sequence =? 0); [|done].
    by rewrite prepared_counter_lookup.
Qed.

Lemma assign_sequence_unseen (it : item) (s : run_state) :
  live_map s !! common_path_of it = None →
  assign_sequence it s = (prepared it s, Raise TypeError).
Proof. intros H. by rewrite assign_sequence_spec, H. Qed.

(** What lines 137 to 143 do once [live_map.get] has returned a pair: the
    second member of a companion group takes the sequence number of the
    first and leaves the counter alone. *)
Lemma assign_sequence_second_member (it : item) (s : run_state) (sequence : Z) :
  live_map s !! common_path_of it = Some (sequence, 1) → sequence ≠ 0 →
  ∃ s', assign_sequence it s = (s', Ok sequence)
        ∧ live_map s' !! common_path_of it = Some (sequence, 2)
        ∧ (∀ name label, counter s' name label = counter s name label)
        ∧ allocated s' = allocated s.
Proof.
  intros H Hnz. rewrite assign_sequence_spec, H. simpl.
  destruct (Z.eqb_spec sequence 0); [done|].
  eexists. split; [done|]. simpl.
  destruct (prepared_fields it s) as (_ & _ & -> & _ & _ & _ & _ & ->).
  rewrite lookup_insert_eq. split; [done|]. split; [|done].
  intros name label. apply counter_prepared.
Qed.

Lemma counter_allocate (it : item) (s : run_state) (name label : string) :
  counter (allocate it s) name label
  = if decide (database_name_of it = name ∧ label_of it = label)
    then counter s name label + 1 else counter s name label.
Proof.
  unfold counter at 1, allocate. rewrite view_alter. simpl.
  destruct (decide (database_name_of it = name)) as [<-|Hn].
  - rewrite prepared_lookup. simpl. rewrite lookup_alter.
    destruct (decide (label_of it = label)) as [<-|Hl].
    + rewrite decide_True by done.
      pose proof (prepared_counter_lookup it s) as Hc.
      rewrite prepared_lookup in Hc. simpl in Hc. by rewrite Hc.
    + rewrite decide_False by (by intros [_ ?]). apply counter_prepared.
  - rewrite decide_False by (by intros [? _]).
    change (counter (prepared it s) name label = counter s name label).
    apply counter_prepared.
Qed.

(** A member that finds the count at 2 or more takes the counter's value,
    which is then incremented, and starts the count again at 1. *)
Lemma assign_sequence_later_member (it : item) (s : run_state)
  (sequence reference_count : Z) :
  live_map s !! common_path_of it = Some (sequence, reference_count) →
  2 ≤ reference_count →
  let name := database_name_of it in
  let label := label_of it in
  ∃ s', assign_sequence it s = (s', Ok (counter s name label))
        ∧ live_map s' !! common_path_of it = Some (counter s name label, 1)
        ∧ counter s' name label = counter s name label + 1
        ∧ allocated s' = allocated s ++ [(name, label, counter s name label)].
Proof.
  intros H Hrc. rewrite assign_sequence_spec, H. simpl.
  destruct (Z.geb_spec reference_count 2); [|lia]. simpl.
  eexists. split; [done|]. split; [|split].
  - unfold allocate. simpl. by rewrite lookup_insert_eq.
  - rewrite counter_allocate. by rewrite decide_True.
  - unfold allocate. simpl.
    by destruct (prepared_fields it s) as (_ & _ & _ & _ & _ & _ & _ & ->).
Qed.

Section placement.

Context {clock : Clock}.

(** ** C1 and C7: the first member of a companion group *)

(** C1 at its failing input: one file imported into an empty project.  Its
    companion key has no prior state, [live_map.get(common_path)] returns
    [None], and unpacking it raises [TypeError]: no sequence number is
    allocated, nothing is moved and no catalog is written. *)
Theorem C1_unseen_companion_key_raises :
  let r := import_assets album_options ["/in/IMG_0001.JPG"]
             (init_state reimported_files ∅) in
  snd r = Raise TypeError
  ∧ live_map (fst r) = ∅
  ∧ allocated (fst r) = []
  ∧ ops (fst r) = []
  ∧ disk (fst r) = ∅.
Proof. cbv zeta. repeat split; vm_compute; reflexivity. Qed.

(** C7 at its failing input: the three files of May 2023 are accepted and
    sorted in date order, and the placement of the first one raises
    [TypeError] before any destination name is built; no file is moved and
    no catalog is written. *)
Theorem C7_three_files_raise :
  let r := import_assets album_options ["/in/C.jpg"; "/in/A.JPG"; "/in/B.MOV"]
             (init_state may_files ∅) in
  snd r = Raise TypeError
  ∧ target_location <$> increment_list (fst r)
    = ["/in/A.JPG"; "/in/B.MOV"; "/in/C.jpg"]
  ∧ ops (fst r) = []
  ∧ files (fst r) = may_files
  ∧ disk (fst r) = ∅.
Proof. cbv zeta. repeat split; vm_compute; reflexivity. Qed.

(** ** Placement *)

Lemma place_file_spec (options : ArgumentOptions) (it : item) (sequence : Z)
  (s : run_state) :
  place_file options it sequence s =
  if contains (files s) (dst_location_of options it sequence)
  then (s, Raise AssertionError)
  else
    match files s !! target_location it with
    | None =>
      (set_database
         (alter (λ d, Catalog (<[digest it := file_name_of it sequence]>
                                 (hash d)) (index d))
            (database_name_of it)) s, Raise FileNotFoundError)
    | Some st => (placed options it sequence st s, Ok tt)
    end.
Proof.
  unfold place_file, bind, gets.
  destruct (contains (files s) _); [done|].
  unfold put_hash, modify, shutil_copy, shutil_move, bind, gets, placed. simpl.
  destruct (with_copy options); simpl;
    by destruct (files s !! target_location it).
Qed.

Lemma assign_sequence_frame (it : item) (s s1 : run_state) (r : result Z) :
  assign_sequence it s = (s1, r) →
  files s1 = files s ∧ ops s1 = ops s ∧ disk s1 = disk s
  ∧ stdout s1 = stdout s
  ∧ ∀ name, hash (view s1 name) = hash (view s name).
Proof.
  rewrite assign_sequence_spec.
  destruct (prepared_fields it s) as (_ & _ & _ & Hf & Hd & Ho & Hout & _).
  assert (∀ name, hash (view (prepared it s) name) = hash (view s name)) as Hh.
  { intros name. rewrite view_prepared.
    destruct (decide _); [|done]. by destruct (contains _ _). }
  destruct (live_map s !! common_path_of it) as [[sequence rc]|].
  - destruct (_ =? 0); intros [= <- <-]; simpl; repeat split; try done.
    intros name. unfold allocate. rewrite view_alter. simpl.
    destruct (decide _) as [<-|]; [|apply Hh].
    rewrite prepared_lookup. simpl. apply Hh.
  - intros [= <- <-]. done.
Qed.

(** ** C9: an existing destination *)

(** C9: when the destination computed for the item already exists, the
    turn raises [AssertionError]; the files, the recorded operations, the
    stored catalogs and every HashIndex are as they were before the turn,
    the remaining items are not processed, and the code after the loop
    (the catalog writes) is not reached. *)
Theorem C9_existing_destination_aborts (options : ArgumentOptions) (it : item)
  (rest : list item) (after : M unit) (s s1 : run_state) (sequence : Z) :
  assign_sequence it s = (s1, Ok sequence) →
  contains (files s) (dst_location_of options it sequence) = true →
  place_item options it s = (s1, Raise AssertionError)
  ∧ (for_each (place_item options) (it :: rest) ;;; after) s
    = (s1, Raise AssertionError)
  ∧ files s1 = files s
  ∧ ops s1 = ops s
  ∧ disk s1 = disk s
  ∧ ∀ name, hash (view s1 name) = hash (view s name).
Proof.
  intros Hseq Hdst.
  destruct (assign_sequence_frame _ _ _ _ Hseq) as (Hf & Ho & Hd & _ & Hh).
  assert (place_item options it s = (s1, Raise AssertionError)) as Hplace.
  { unfold place_item, bind. rewrite Hseq, place_file_spec. by rewrite Hf, Hdst. }
  split; [done|]. split; [|done].
  unfold bind at 1. by rewrite for_each_cons, Hplace.
Qed.

End placement.

Lemma C9_existing_destination_witness :
  ∃ s1,
    place_item album_options pair_item (pair_state pair_files)
      = (s1, Raise AssertionError)
    ∧ (for_each (place_item album_options) [pair_item] ;;; ret tt)
        (pair_state pair_files) = (s1, Raise AssertionError)
    ∧ files s1 = pair_files
    ∧ ops s1 = []
    ∧ disk s1 = ∅
    ∧ ∀ name, hash (view s1 name) = hash (view (pair_state pair_files) name).
Proof.
  eexists.
  apply (C9_existing_destination_aborts album_options pair_item [] (ret tt)
           (pair_state pair_files) _ 1).
  - vm_compute. reflexivity.
  - vm_compute. reflexivity.
Defined.

Section modification_time.

Context {clock : Clock}.

Lemma assign_sequence_cached (it : item) (s s1 : run_state) (r : result Z) :
  assign_sequence it s = (s1, r) →
  database s1 !! database_name_of it = Some (view s1 (database_name_of it)).
Proof.
  intros Hseq. unfold view.
  destruct (database s1 !! database_name_of it) eqn:Hl; [done|].
  exfalso. revert Hseq Hl. rewrite assign_sequence_spec.
  pose proof (prepared_lookup it s) as Hp.
  destruct (live_map s !! common_path_of it) as [[sequence rc]|].
  - destruct (_ =? 0); intros [= <- <-]; simpl.
    + by rewrite lookup_alter_eq, Hp.
    + by rewrite Hp.
  - intros [= <- <-]. by rewrite Hp.
Qed.

Lemma survivors_stat (fs : gmap string file_stat) (d : gmap string stored)
  (asset_list : list string) (it : item) :
  it ∈ survivors fs d asset_list →
  fs !! target_location it
  = Some (FileStat (timestamp it) (mtime it) (digest it)).
Proof.
  unfold survivors.
  destruct (for_each scan_asset asset_list (init_state fs d)) as [s' r] eqn:Hrun.
  pose proof (scan_same_world _ _ _ _ Hrun) as (_ & Hf & _). simpl in Hf.
  rewrite <-Hf. simpl. revert it.
  eapply (for_each_inv
            (λ s, ∀ it, it ∈ increment_list s →
               files s !! target_location it
               = Some (FileStat (timestamp it) (mtime it) (digest it))));
    [|..|exact Hrun].
  - clear. intros p s s' r IH. rewrite scan_asset_spec.
    destruct (files s !! p) as [st|] eqn:Hst; [|by intros [= <- <-]].
    destruct (cached_fields (str (tm_year (st_mtime st))) s)
      as (Hi & _ & _ & Hf & _).
    simpl. destruct (_ || _); intros [= <- <-]; simpl; rewrite ?Hi, ?Hf;
      [done|].
    intros it [Hit|Hit]%elem_of_app; [by apply IH|].
    apply list_elem_of_singleton in Hit. subst it. simpl. rewrite Hst.
    by destruct st.
  - simpl. intros it Hit. by apply elem_of_nil in Hit.
Qed.

(** ** C5: where the label, the directory and the catalog come from *)

(** C5, as stated, fails: two accepted files with the same creation time
    but modified in different months get different labels, different year
    directories and different catalogs. *)
Lemma C5_counterexample : ¬ placed_by_creation_time album_options.
Proof.
  intros H.
  destruct (H touched_files ∅ ["/in/IMG_0001.JPG"; "/in/IMG_0002.JPG"]
              (Item 1682899200 (StructTime 2023 5 1) "f3b0c44298fc1c14"
                 "/in/IMG_0001.JPG")
              (Item 1682899200 (StructTime 2024 6 15) "0a4d55a8d778e502"
                 "/in/IMG_0002.JPG")) as (Hlabel & _).
  - vm_compute. left.
  - vm_compute. right. left.
  - reflexivity.
  - vm_compute in Hlabel. discriminate Hlabel.
Qed.

(** C5, amended: a turn of the placement loop that completes sends the
    file to [project_path/YYYY[/YYYY-MM-DD]/YYYYMM_NNNN.ext] and records
    that name under the file's fingerprint in the catalog [str(YYYY)], where
    YYYY, MM and DD are the year, month and day of the item's [mtime], the
    local time of the file's last modification.  The creation time plays no
    part: the turn is the same for any timestamp. *)
Theorem C5_placed_by_modification_time (options : ArgumentOptions) (it : item)
  (s s' : run_state) :
  place_item options it s = (s', Ok tt) →
  ∃ sequence : Z,
    let label :=
      percent_0d 2 (tm_year (mtime it)) +:+ percent_0d 2 (tm_mon (mtime it)) in
    let year_directory :=
      path_join (work_path options) (project_name options) +:+ "/"
      +:+ percent_0d 4 (tm_year (mtime it)) in
    let directory :=
      if with_date options
      then path_join year_directory (strftime_Ymd (mtime it))
      else year_directory in
    let file_name :=
      label +:+ "_" +:+ percent_0d 4 sequence +:+ "." +:+ extension_of it in
    ops s' = ops s ++ [(if with_copy options then Copy else Move)
                         (target_location it) (directory +:+ "/" +:+ file_name)]
    ∧ hash (view s' (str (tm_year (mtime it)))) !! digest it = Some file_name
    ∧ (∀ name, name ≠ str (tm_year (mtime it)) →
         hash (view s' name) = hash (view s name))
    ∧ (∀ t, place_item options
              (Item t (mtime it) (digest it) (target_location it)) s
            = (s', Ok tt))
    ∧ (∀ fs d asset_list, it ∈ survivors fs d asset_list →
         ∃ st, fs !! target_location it = Some st ∧ mtime it = st_mtime st
               ∧ timestamp it = st_birthtime st).
Proof.
  intros Hplace.
  assert (∀ t, place_item options
                 (Item t (mtime it) (digest it) (target_location it)) s
               = place_item options it s) as Hts.
  { intros t. by destruct it. }
  unfold place_item, bind in Hplace.
  destruct (assign_sequence it s) as [s1 [sequence|e]] eqn:Hseq; [|done].
  rewrite place_file_spec in Hplace.
  destruct (contains (files s1) _) eqn:Hdst; [done|].
  destruct (files s1 !! target_location it) as [st|] eqn:Hsrc; [|done].
  injection Hplace as <-. exists sequence.
  destruct (assign_sequence_frame _ _ _ _ Hseq) as (Hf & Ho & Hd & _ & Hh).
  pose proof (assign_sequence_cached _ _ _ _ Hseq) as Hc.
  split; [|split; [|split; [|split]]].
  - unfold placed. simpl. rewrite Ho. by destruct (with_copy options).
  - change (hash (view (set_database
              (alter (λ d, Catalog (<[digest it := file_name_of it sequence]>
                                      (hash d)) (index d))
                 (database_name_of it)) s1) (database_name_of it))
            !! digest it = Some (file_name_of it sequence)).
    rewrite view_alter, decide_True, Hc by done. simpl.
    by rewrite lookup_insert_eq.
  - intros name Hne.
    change (hash (view (set_database
              (alter (λ d, Catalog (<[digest it := file_name_of it sequence]>
                                      (hash d)) (index d))
                 (database_name_of it)) s1) name) = hash (view s name)).
    rewrite view_alter, decide_False by done. apply Hh.
  - intros t. rewrite Hts. unfold place_item, bind.
    by rewrite Hseq, place_file_spec, Hdst, Hsrc.
  - intros fs d asset_list Hit. apply survivors_stat in Hit.
    eexists. split; [exact Hit|]. done.
Qed.

End modification_time.

Lemma C5_placed_witness :
  ∃ sequence : Z,
    ops (fst (place_item album_options pair_item (pair_state video_only)))
    = [Move "/in/IMG_0001.MOV"
         ("/Volumes/Remember/CameraRoll/album/2023/202305_"
          +:+ percent_0d 4 sequence +:+ ".MOV")].
Proof.
  destruct (C5_placed_by_modification_time album_options pair_item
              (pair_state video_only)
              (fst (place_item album_options pair_item (pair_state video_only))))
    as (sequence & Hops & _).
  - vm_compute. reflexivity.
  - exists sequence. exact Hops.
Defined.

Section no_new_fingerprint.

Context {clock : Clock}.

(** ** C8: a run without new fingerprints *)

Lemma catalog_eta (c : catalog) : Catalog (hash c) (index c) = c.
Proof. by destruct c. Qed.

Lemma load_insert (d : gmap string stored) (name name' : string) (c : catalog) :
  load (<[name := Document (Some (hash c)) (Some (index c))]> d) name'
  = if decide (name = name') then c else load d name'.
Proof.
  unfold load. rewrite lookup_insert.
  destruct (decide (name = name')); [|done]. apply catalog_eta.
Qed.

Lemma write_back_spec (l : list (string * catalog)) (s : run_state) :
  ∃ s',
    for_each (λ '(name, mini_database), write_database name mini_database) l s
    = (s', Ok tt)
    ∧ files s' = files s ∧ ops s' = ops s
    ∧ ((∀ name c, (name, c) ∈ l → c = load (disk s) name) →
       ∀ name, load (disk s') name = load (disk s) name).
Proof.
  revert s. induction l as [|[name c] l IH]; intros s.
  - by exists s.
  - rewrite for_each_cons.
    unfold write_database at 1, bind, modify. simpl.
    destruct (IH (print (PrintDatabase name)
                    (set_disk
                       <[name := Document (Some (hash c)) (Some (index c))]> s)))
      as (s' & -> & Hf & Ho & Hl).
    exists s'. split; [done|]. split; [done|]. split; [done|].
    intros Hall. simpl in Hl.
    assert (∀ name',
              load (<[name := Document (Some (hash c)) (Some (index c))]> (disk s))
                name' = load (disk s) name') as Hsame.
    { intros name'. rewrite load_insert. destruct (decide _) as [<-|]; [|done].
      apply Hall. left. }
    intros name'. rewrite Hl, Hsame; [done|].
    intros n c' Hin. rewrite Hsame. apply Hall. by right.
Qed.

(** The scan of a list of known duplicates accepts nothing and caches only
    what is on disk. *)
Lemma scan_all_duplicates (asset_list : list string) (s : run_state) :
  increment_list s = [] →
  (∀ name c, database s !! name = Some c → c = load (disk s) name) →
  (∀ p, p ∈ asset_list →
     ∃ st, files s !! p = Some st
           ∧ contains (hash (load (disk s) (str (tm_year (st_mtime st)))))
               (md5_hexdigest st) = true) →
  ∃ s',
    for_each scan_asset asset_list s = (s', Ok tt)
    ∧ increment_list s' = []
    ∧ (∀ name c, database s' !! name = Some c → c = load (disk s) name)
    ∧ same_world s s'.
Proof.
  revert s. induction asset_list as [|p l IH]; intros s Hi Hdb Hdup.
  - exists s. by repeat split.
  - destruct (Hdup p) as (st & Hst & Hc); [left|].
    set (name := str (tm_year (st_mtime st))) in *.
    assert (view s name = load (disk s) name) as Hview.
    { unfold view. destruct (database s !! name) eqn:Hl; [|done]. by apply Hdb. }
    rewrite for_each_cons, scan_asset_spec, Hst. simpl. fold name.
    rewrite Hview, Hc. simpl.
    destruct (cached_fields name s) as (Hi' & _ & Hl' & Hf' & Hd' & Ho' & _ & Ha').
    destruct (IH (print (PrintDup (md5_hexdigest st) p) (cached name s)))
      as (s' & -> & Hi2 & Hdb2 & Hw).
    + simpl. by rewrite Hi'.
    + simpl. rewrite Hd'. intros n c Hn.
      destruct (decide (name = n)) as [<-|Hne].
      * rewrite cached_lookup in Hn. congruence.
      * rewrite cached_lookup_ne in Hn by done. by apply Hdb.
    + simpl. rewrite Hf', Hd'. intros q Hq. apply Hdup. by right.
    + exists s'. split; [done|]. split; [done|]. split.
      * intros n c Hn. apply Hdb2 in Hn. simpl in Hn. by rewrite Hd' in Hn.
      * destruct Hw as (Hw1 & Hw2 & Hw3 & Hw4 & Hw5). simpl in *.
        unfold same_world. by rewrite Hw1, Hw2, Hw3, Hw4, Hw5.
Qed.

(** C8: when every path of the source set names a file whose fingerprint
    is already in the HashIndex of the stored catalog of its year, the run
    ends normally, records no copy and no move, leaves every file where it
    was, and every catalog reads back as before. *)
Theorem C8_no_new_fingerprint_no_change (options : ArgumentOptions)
  (fs : gmap string file_stat) (d : gmap string stored)
  (asset_list : list string) :
  (∀ p, p ∈ asset_list →
     ∃ st, fs !! p = Some st
           ∧ contains (hash (load d (str (tm_year (st_mtime st)))))
               (md5_hexdigest st) = true) →
  ∃ s',
    import_assets options asset_list (init_state fs d) = (s', Ok tt)
    ∧ ops s' = []
    ∧ files s' = fs
    ∧ ∀ name, load (disk s') name = load d name.
Proof.
  intros Hdup.
  destruct (scan_all_duplicates asset_list (init_state fs d))
    as (s1 & Hscan & Hi & Hdb & (_ & Hf & Hd & Ho & _)); [done| |done|].
  { intros name c H. simpl in H. by rewrite lookup_empty in H. }
  unfold import_assets, bind at 1. rewrite Hscan.
  unfold bind at 1, modify at 1, bind at 1, gets at 1. simpl. rewrite Hi. simpl.
  unfold bind at 1, ret at 1, bind at 1, gets at 1.
  destruct (write_back_spec (map_to_list (database s1))
              (set_increment_list
                 (list_sort (cmp_to_key_lt camera_roll_sort)) s1))
    as (s' & Hw & Hf' & Ho' & Hl).
  exists s'. split; [exact Hw|]. simpl in *.
  split; [by rewrite Ho', Ho|]. split; [by rewrite Hf', Hf|].
  intros name. rewrite Hl, Hd; [done|].
  intros n c Hn. apply elem_of_map_to_list in Hn. rewrite Hd.
  by apply Hdb in Hn.
Qed.

End no_new_fingerprint.

Lemma C8_no_new_fingerprint_witness :
  ∃ s',
    import_assets album_options ["/in/IMG_0001.JPG"]
      (init_state reimported_files catalog_2023) = (s', Ok tt)
    ∧ ops s' = []
    ∧ files s' = reimported_files
    ∧ ∀ name, load (disk s') name = load catalog_2023 name.
Proof.
  apply (C8_no_new_fingerprint_no_change album_options reimported_files
           catalog_2023 ["/in/IMG_0001.JPG"]).
  intros p Hp. apply list_elem_of_singleton in Hp. subst p.
  eexists. split; vm_compute; reflexivity.
Defined.

Section counters.

Context {clock : Clock}.

(** ** C3: counters and allocated sequence numbers *)













End counters.


(** ** Split: dictionaries in insertion order *)

Import Split.

Lemma dict_get_keys {V} (k : string) (d : list (string * V)) :
  is_Some (dict_get k d) ↔ k ∈ d.*1.
Proof.
  induction d as [|[k' v] d IH]; simpl.
  - split; [by intros [? ?]|by intros ?%elem_of_nil].
  - destruct (String.eqb_spec k' k) as [->|Hne].
    + split; [intros _; left|by eexists].
    + rewrite IH. split; [by right|].
      intros [?|?]%elem_of_cons; [congruence|done].
Qed.

Lemma dict_get_elem {V} (k : string) (v : V) (d : list (string * V)) :
  NoDup d.*1 → (k, v) ∈ d ↔ dict_get k d = Some v.
Proof.
  induction d as [|[k' v'] d IH]; simpl; intros Hnd.
  - split; [by intros ?%elem_of_nil|done].
  - apply NoDup_cons in Hnd as [Hk' Hnd].
    destruct (String.eqb_spec k' k) as [->|Hne].
    + split.
      * intros [[= ->]|Hin]%elem_of_cons; [done|].
        destruct Hk'. apply list_elem_of_fmap. by exists (k, v).
      * intros [= ->]. left.
    + rewrite <-IH by done. split.
      * intros [[= -> ->]|Hin]%elem_of_cons; [done|done].
      * by right.
Qed.

Lemma dict_set_fresh {V} (k : string) (v : V) (d : list (string * V)) :
  k ∉ d.*1 → dict_set k v d = d ++ [(k, v)].
Proof.
  induction d as [|[k' v'] d IH]; simpl; intros Hk; [done|].
  apply not_elem_of_cons in Hk as [Hne Hk].
  destruct (String.eqb_spec k' k) as [->|_]; [done|]. by rewrite IH.
Qed.

Lemma build_dict_from {V} (l acc : list (string * V)) :
  NoDup (acc ++ l).*1 →
  fold_left (λ d e, dict_set (fst e) (snd e) d) l acc = acc ++ l.
Proof.
  revert acc. induction l as [|[k v] l IH]; intros acc Hnd; simpl.
  - by rewrite app_nil_r.
  - rewrite dict_set_fresh.
    + rewrite IH; rewrite <-app_assoc; done.
    + rewrite fmap_app in Hnd. apply NoDup_app in Hnd as (_ & Hd & _).
      intros Hin. apply (Hd k Hin). left.
Qed.

Lemma build_dict_id {V} (l : list (string * V)) :
  NoDup l.*1 → build_dict l = l.
Proof. intros. by apply (build_dict_from l []). Qed.

(** ** Split: grouping by year *)

Lemma dict_get_group_append {X} (y y' : string) (x : X)
  (g : list (string * list X)) :
  dict_get y' (group_append y x g)
  = if decide (y' = y) then Some (default [] (dict_get y g) ++ [x])
    else dict_get y' g.
Proof.
  induction g as [|[k l] g IH]; simpl.
  - destruct (String.eqb_spec y y') as [->|Hne].
    + by rewrite decide_True.
    + by rewrite decide_False.
  - destruct (String.eqb_spec k y) as [->|Hky]; simpl.
    + destruct (String.eqb_spec y y') as [->|Hne].
      * by rewrite decide_True.
      * by rewrite decide_False.
    + rewrite IH. destruct (String.eqb_spec k y') as [->|Hky'].
      * by rewrite decide_False.
      * done.
Qed.

Lemma keys_group_append {X} (y : string) (x : X) (g : list (string * list X)) :
  (group_append y x g).*1
  = if decide (y ∈ g.*1) then g.*1 else g.*1 ++ [y].
Proof.
  induction g as [|[k l] g IH].
  - destruct (decide (y ∈ ([] : list (string * list X)).*1)) as [Hin|_];
      [by apply elem_of_nil in Hin|done].
  - cbn [group_append]. destruct (String.eqb_spec k y) as [->|Hky].
    + destruct (decide (y ∈ ((y, l) :: g).*1)) as [_|Hin]; [done|].
      destruct Hin. left.
    + rewrite fmap_cons, IH. cbn [fst].
      destruct (decide (y ∈ g.*1)) as [Hin|Hnin];
        destruct (decide (y ∈ ((k, l) :: g).*1)) as [Hin'|Hin']; try done.
      * destruct Hin'. rewrite fmap_cons. by right.
      * rewrite fmap_cons in Hin'.
        apply elem_of_cons in Hin' as [?|?]; [simpl in *; congruence|done].
Qed.

Lemma group_by_snoc {X} (year : X → string) (d : list X) (x : X) :
  group_by year (d ++ [x]) = group_append (year x) x (group_by year d).
Proof. unfold group_by. by rewrite fold_left_app. Qed.

Lemma group_by_keys_NoDup {X} (year : X → string) (d : list X) :
  NoDup (group_by year d).*1.
Proof.
  induction d as [|x d IH] using rev_ind; [constructor|].
  rewrite group_by_snoc, keys_group_append.
  destruct (decide _) as [|Hnin]; [done|].
  apply NoDup_app. split; [done|]. split; [|apply NoDup_singleton].
  intros k Hk ->%list_elem_of_singleton. done.
Qed.

(** The group of a year is the entries of that year, in document order;
    a year without entries has no group. *)
Lemma dict_get_group_by {X} (year : X → string) (d : list X) (y : string) :
  dict_get y (group_by year d)
  = match filter (λ x, year x = y) d with
    | [] => None
    | l => Some l
    end.
Proof.
  induction d as [|x d IH] using rev_ind; [done|].
  rewrite group_by_snoc, dict_get_group_append, filter_app.
  destruct (decide (y = year x)) as [->|Hne].
  - rewrite IH, filter_cons_True by done.
    destruct (filter _ d); done.
  - rewrite IH, filter_cons_False by done. by rewrite app_nil_r.
Qed.

Lemma group_by_keys {X} (year : X → string) (d : list X) (y : string) :
  y ∈ (group_by year d).*1 ↔ y ∈ year <$> d.
Proof.
  rewrite <-dict_get_keys, dict_get_group_by, list_elem_of_fmap.
  split.
  - intros Hsome. destruct (filter _ d) as [|x l] eqn:Hf; [by destruct Hsome|].
    assert (x ∈ filter (λ x, year x = y) d) as Hx by (rewrite Hf; left).
    apply list_elem_of_filter in Hx as [<- Hx]. by exists x.
  - intros (x & -> & Hx).
    assert (x ∈ filter (λ x', year x' = year x) d) as Hf
      by (by apply list_elem_of_filter).
    destruct (filter _ d); [by apply elem_of_nil in Hf|by eexists].
Qed.

Lemma keys_eq_spec {X Y} (a : list (string * X)) (b : list (string * Y)) :
  keys_eq a b = true ↔ ∀ k, k ∈ a.*1 ↔ k ∈ b.*1.
Proof.
  unfold keys_eq. rewrite andb_true_iff, !forallb_forall.
  assert (∀ (l : list string) k,
            existsb (String.eqb k) l = true ↔ k ∈ l) as Hex.
  { intros l k. rewrite existsb_exists. split.
    - intros (k' & Hin & ->%String.eqb_eq). by apply list_elem_of_In.
    - intros Hin. exists k. split; [by apply list_elem_of_In|].
      apply String.eqb_refl. }
  split.
  - intros [Hab Hba] k. split; intros Hk.
    + apply Hex, Hab. by apply list_elem_of_In.
    + apply Hex, Hba. by apply list_elem_of_In.
  - intros Heq. split; intros k Hk%list_elem_of_In; apply Hex; by apply Heq.
Qed.

(** ** Split: the writes *)

Lemma write_years_ok (path_exists : string → bool) (project_path : string)
  (gi : list (string * list (string * Z)))
  (gh : list (string * list (string * string)))
  (years : list string) (written : list (string * mini_database)) :
  Forall (λ y, path_exists (path_join project_path y) = true
               ∧ is_Some (dict_get y gi) ∧ is_Some (dict_get y gh)) years →
  write_years path_exists project_path gi gh years written
  = (written ++ ((λ y, (y, MiniDatabase
                         (build_dict (default [] (dict_get y gi)))
                         (build_dict (default [] (dict_get y gh))))) <$> years),
     Ok tt).
Proof.
  revert written. induction years as [|y years IH]; intros written Hall; simpl.
  - by rewrite app_nil_r.
  - apply Forall_cons in Hall as [(-> & [li ->] & [lh ->]) Hall]. simpl.
    rewrite IH by done. by rewrite <-app_assoc.
Qed.

Lemma write_years_inv (path_exists : string → bool) (project_path : string)
  (gi : list (string * list (string * Z)))
  (gh : list (string * list (string * string)))
  (years : list string) (written w' : list (string * mini_database)) :
  write_years path_exists project_path gi gh years written = (w', Ok tt) →
  Forall (λ y, path_exists (path_join project_path y) = true
               ∧ is_Some (dict_get y gi) ∧ is_Some (dict_get y gh)) years.
Proof.
  revert written. induction years as [|y years IH]; intros written; simpl.
  - constructor.
  - destruct (path_exists (path_join project_path y)) eqn:Hp; simpl; [|done].
    destruct (dict_get y gi) as [li|] eqn:Hgi; [|done].
    destruct (dict_get y gh) as [lh|] eqn:Hgh; [|done].
    intros Hrun. constructor; [|by eapply IH].
    rewrite Hgi, Hgh. split; [done|]. split; by eexists.
Qed.

Lemma filter_keys_NoDup {V} (P : string * V → Prop) `{∀ e, Decision (P e)}
  (d : list (string * V)) :
  NoDup d.*1 → NoDup (filter P d).*1.
Proof.
  intros Hnd. apply (sublist_NoDup _ d.*1); [done|].
  apply fmap_sublist, sublist_filter.
Qed.

(** The catalogs a successful split writes: one per year of the
    SequenceIndex, holding the entries of that year. *)
Lemma seperate_database_writes (path_exists : string → bool)
  (project_path : string) (index_map : list (string * Z))
  (hash_map : list (string * string)) (w : list (string * mini_database)) :
  NoDup index_map.*1 → NoDup hash_map.*1 →
  seperate_database path_exists project_path
    (Parsed (Some index_map) (Some hash_map)) = (w, Ok tt) →
  w = (λ y, (y, year_catalog index_map hash_map y))
        <$> (group_by index_year index_map).*1
  ∧ same_years index_map hash_map.
Proof.
  intros Hni Hnh. unfold seperate_database.
  destruct index_map as [|ei index_map]; [done|].
  destruct hash_map as [|eh hash_map]; [done|].
  set (im := ei :: index_map) in *. set (hm := eh :: hash_map) in *.
  destruct (keys_eq (group_by hash_year hm) (group_by index_year im)) eqn:Hk;
    simpl; [|done].
  pose proof (proj1 (keys_eq_spec _ _) Hk) as Hkeys. intros Hrun.
  pose proof (write_years_inv _ _ _ _ _ _ _ Hrun) as Hall.
  rewrite write_years_ok in Hrun by done. injection Hrun as <-.
  split.
  - simpl. apply list_fmap_ext. intros i y Hy.
    apply list_elem_of_lookup_2 in Hy.
    rewrite Forall_forall in Hall. destruct (Hall y Hy) as (_ & Hgi & Hgh).
    unfold year_catalog. rewrite !dict_get_group_by in *.
    destruct (filter (λ e, index_year e = y) im) as [|a li] eqn:Hfi;
      [by destruct Hgi|].
    destruct (filter (λ e, hash_year e = y) hm) as [|b lh] eqn:Hfh;
      [by destruct Hgh|].
    simpl. f_equal. f_equal.
    + apply build_dict_id. rewrite <-Hfi. by apply filter_keys_NoDup.
    + apply build_dict_id. rewrite <-Hfh. by apply filter_keys_NoDup.
  - intros y. rewrite <-(group_by_keys index_year im y).
    rewrite <-(group_by_keys hash_year hm y). symmetry. apply Hkeys.
Qed.

(** ** C10: the split is a partition *)

(** C10: for an aggregate catalog whose two sections are dictionaries,
    [seperate_database] raises [AssertionError] when the years of the
    HashIndex file names and the years of the SequenceIndex labels are not
    the same set; it completes when both sections are non-empty, the years
    agree and every year directory exists; and when it completes it has
    written one catalog per year, each holding exactly the entries whose
    four-character prefix is that year, so that every entry of the
    aggregate catalog is in exactly one written catalog and the written
    catalogs hold nothing else. *)
Theorem C10_split_is_a_partition (path_exists : string → bool)
  (project_path : string) (index_map : list (string * Z))
  (hash_map : list (string * string)) :
  NoDup index_map.*1 → NoDup hash_map.*1 →
  let run := seperate_database path_exists project_path
               (Parsed (Some index_map) (Some hash_map)) in
  (¬ same_years index_map hash_map → snd run = Raise AssertionError)
  ∧ (index_map ≠ [] → hash_map ≠ [] → same_years index_map hash_map →
     (∀ e, e ∈ index_map →
        path_exists (path_join project_path (index_year e)) = true) →
     snd run = Ok tt)
  ∧ (snd run = Ok tt →
     NoDup (fst run).*1
     ∧ (∀ year mini, (year, mini) ∈ fst run →
          mini = year_catalog index_map hash_map year)
     ∧ (∀ e, e ∈ index_map ↔
             ∃ year mini, (year, mini) ∈ fst run ∧ e ∈ mini_index mini)
     ∧ (∀ e, e ∈ hash_map ↔
             ∃ year mini, (year, mini) ∈ fst run ∧ e ∈ mini_hash mini)
     ∧ (∀ e y1 m1 y2 m2,
          (y1, m1) ∈ fst run → (y2, m2) ∈ fst run →
          e ∈ mini_index m1 → e ∈ mini_index m2 → y1 = y2 ∧ m1 = m2)
     ∧ (∀ e y1 m1 y2 m2,
          (y1, m1) ∈ fst run → (y2, m2) ∈ fst run →
          e ∈ mini_hash m1 → e ∈ mini_hash m2 → y1 = y2 ∧ m1 = m2)).
Proof.
  intros Hni Hnh run. split; [|split].
  - intros Hdiff. subst run. unfold seperate_database.
    destruct index_map as [|ei index_map]; [done|].
    destruct hash_map as [|eh hash_map]; [done|].
    destruct (keys_eq _ _) eqn:Hk; [|done].
    destruct Hdiff. intros y.
    rewrite <-(group_by_keys index_year (ei :: index_map) y).
    rewrite <-(group_by_keys hash_year (eh :: hash_map) y).
    symmetry. by apply keys_eq_spec.
  - intros Hi Hh Hsame Hdirs. subst run. unfold seperate_database.
    destruct index_map as [|ei index_map]; [done|].
    destruct hash_map as [|eh hash_map]; [done|].
    set (im := ei :: index_map) in *. set (hm := eh :: hash_map) in *.
    assert (∀ k, k ∈ (group_by hash_year hm).*1
                 ↔ k ∈ (group_by index_year im).*1) as Hkeys.
    { intros k. rewrite (group_by_keys hash_year hm k).
      rewrite (group_by_keys index_year im k). symmetry. apply Hsame. }
    rewrite (proj2 (keys_eq_spec _ _) Hkeys). simpl.
    rewrite write_years_ok; [done|].
    apply Forall_forall. intros y Hy. split; [|split].
    + apply (group_by_keys index_year im) in Hy.
      apply list_elem_of_fmap in Hy as (e & -> & He). by apply Hdirs.
    + by apply dict_get_keys.
    + by apply dict_get_keys, Hkeys.
  - intros Hok. destruct run as [w r] eqn:Hrun. simpl in Hok. subst r run.
    apply seperate_database_writes in Hrun as [-> Hsame]; [|done..].
    simpl.
    assert (∀ year mini,
              (year, mini) ∈ (λ y, (y, year_catalog index_map hash_map y))
                               <$> (group_by index_year index_map).*1
              ↔ year ∈ index_year <$> index_map
                ∧ mini = year_catalog index_map hash_map year) as Hw.
    { intros year mini.
      rewrite list_elem_of_fmap, <-(group_by_keys index_year index_map year).
      split.
      - by intros (y & [= -> ->] & Hy).
      - intros [Hy ->]. by exists year. }
    split; [|split; [|split; [|split; [|split]]]].
    + rewrite <-list_fmap_compose.
      rewrite (list_fmap_ext _ id _ (λ _ _ _, eq_refl)), list_fmap_id.
      apply group_by_keys_NoDup.
    + intros year mini Hin. by apply Hw in Hin as [_ ->].
    + intros e. split.
      * intros He. exists (index_year e), (year_catalog index_map hash_map
                                            (index_year e)).
        split.
        -- apply Hw. split; [|done]. apply list_elem_of_fmap. by exists e.
        -- simpl. by apply list_elem_of_filter.
      * intros (year & mini & [_ ->]%Hw & He). simpl in He.
        by apply list_elem_of_filter in He as [_ He].
    + intros e. split.
      * intros He. exists (hash_year e), (year_catalog index_map hash_map
                                           (hash_year e)).
        split.
        -- apply Hw. split; [|done]. apply Hsame, list_elem_of_fmap.
           by exists e.
        -- simpl. by apply list_elem_of_filter.
      * intros (year & mini & [_ ->]%Hw & He). simpl in He.
        by apply list_elem_of_filter in He as [_ He].
    + intros e y1 m1 y2 m2 [_ ->]%Hw [_ ->]%Hw H1 H2. simpl in H1, H2.
      apply list_elem_of_filter in H1 as [<- _].
      apply list_elem_of_filter in H2 as [<- _]. done.
    + intros e y1 m1 y2 m2 [_ ->]%Hw [_ ->]%Hw H1 H2. simpl in H1, H2.
      apply list_elem_of_filter in H1 as [<- _].
      apply list_elem_of_filter in H2 as [<- _]. done.
Qed.

Lemma C10_split_witness :
  let run := seperate_database year_directories "/album"
               (Parsed (Some aggregate_index) (Some aggregate_hash)) in
  snd run = Ok tt
  ∧ (fst run).*1 = ["2023"; "2022"]
  ∧ (∀ e, e ∈ aggregate_index ↔
          ∃ year mini, (year, mini) ∈ fst run ∧ e ∈ mini_index mini)
  ∧ (∀ e, e ∈ aggregate_hash ↔
          ∃ year mini, (year, mini) ∈ fst run ∧ e ∈ mini_hash mini).
Proof.
  destruct (C10_split_is_a_partition year_directories "/album"
              aggregate_index aggregate_hash) as (_ & _ & Hpart).
  - apply (bool_decide_unpack _). vm_compute. exact I.
  - apply (bool_decide_unpack _). vm_compute. exact I.
  - assert (snd (seperate_database year_directories "/album"
                   (Parsed (Some aggregate_index) (Some aggregate_hash)))
            = Ok tt) as Hok by (vm_compute; reflexivity).
    destruct (Hpart Hok) as (_ & _ & Hi & Hh & _).
    split; [exact Hok|]. split; [vm_compute; reflexivity|].
    split; [exact Hi|exact Hh].
Defined.

Section whole_run.

Context {clock : Clock}.

(** ** The whole run *)

Lemma bind_raise {A B} (m : M A) (k : A → M B) (s s' : run_state) (e : exn) :
  m s = (s', Raise e) → bind m k s = (s', Raise e).
Proof. intros H. unfold bind. by rewrite H. Qed.

Lemma bind_ok {A B} (m : M A) (k : A → M B) (s s' : run_state) (a : A) :
  m s = (s', Ok a) → bind m k s = k a s'.
Proof. intros H. unfold bind. by rewrite H. Qed.

(** Every run that accepts at least one asset stops at the first turn of
    the placement loop: [live_map] is empty there, so [live_map.get]
    returns [None] and the unpacking raises.  Nothing is moved or copied and
    no catalog is written. *)
Lemma import_assets_raises_on_first_survivor (options : ArgumentOptions)
  (fs : gmap string file_stat) (d : gmap string stored)
  (asset_list : list string) :
  snd (for_each scan_asset asset_list (init_state fs d)) = Ok tt →
  survivors fs d asset_list ≠ [] →
  let r := import_assets options asset_list (init_state fs d) in
  snd r = Raise TypeError
  ∧ ops (fst r) = [] ∧ files (fst r) = fs ∧ disk (fst r) = d
  ∧ increment_list (fst r) = ordered fs d asset_list.
Proof.
  unfold survivors, ordered, survivors.
  destruct (for_each scan_asset asset_list (init_state fs d)) as [s1 r1] eqn:Hscan.
  simpl. intros -> Hne.
  destruct (scan_same_world _ _ _ _ Hscan) as (Hl & Hf & Hd & Ho & _).
  simpl in Hl, Hf, Hd, Ho.
  destruct (list_sort (cmp_to_key_lt camera_roll_sort) (increment_list s1))
    as [|it l] eqn:Hsort.
  { destruct Hne. apply Permutation_nil. by rewrite <-Hsort, list_sort_perm. }
  set (s2 := set_increment_list
               (list_sort (cmp_to_key_lt camera_roll_sort)) s1).
  assert (place_item options it s2 = (prepared it s2, Raise TypeError)) as Hit.
  { unfold place_item. apply bind_raise, assign_sequence_unseen.
    subst s2. simpl. by rewrite Hl, lookup_empty. }
  assert (import_assets options asset_list (init_state fs d)
          = (prepared it s2, Raise TypeError)) as ->.
  { unfold import_assets. rewrite (bind_ok _ _ _ _ _ Hscan).
    unfold bind at 1, modify at 1, bind at 1, gets at 1.
    cbn [increment_list set_increment_list]. rewrite Hsort.
    apply bind_raise. fold s2. by rewrite for_each_cons, Hit. }
  destruct (prepared_fields it s2) as (Hi' & _ & _ & Hf' & Hd' & Ho' & _).
  cbv zeta. cbn [fst snd]. rewrite Hi', Hf', Hd', Ho'. subst s2.
  cbn [increment_list files disk ops set_increment_list].
  by rewrite Hsort, Hf, Hd, Ho.
Qed.

(** A catalog once cached stays cached through every turn of the scan and
    of the placement loop. *)
Lemma scan_asset_keeps_cache (p name : string) (s s' : run_state)
  (r : result unit) :
  is_Some (database s !! name) → scan_asset p s = (s', r) →
  is_Some (database s' !! name).
Proof.
  intros Hc. rewrite scan_asset_spec.
  assert (∀ n, is_Some (database (cached n s) !! name)) as Hk.
  { intros n. destruct (decide (n = name)) as [->|Hne].
    - rewrite cached_lookup. by eexists.
    - by rewrite cached_lookup_ne. }
  destruct (files s !! p) as [st|]; [|by intros [= <- <-]].
  simpl. destruct (_ || _); intros [= <- <-]; simpl; apply Hk.
Qed.

Lemma alter_keeps_key (f : catalog → catalog) (m : gmap string catalog)
  (k k' : string) :
  is_Some (m !! k') → is_Some (alter f k m !! k').
Proof.
  intros Hk. rewrite lookup_alter.
  destruct (decide (k = k')) as [->|]; [by apply fmap_is_Some|done].
Qed.

Lemma place_item_keeps_cache (options : ArgumentOptions) (it : item)
  (name : string) (s s' : run_state) (r : result unit) :
  is_Some (database s !! name) → place_item options it s = (s', r) →
  is_Some (database s' !! name).
Proof.
  intros Hc.
  assert (is_Some (database (prepared it s) !! name)) as Hp.
  { unfold prepared.
    assert (is_Some (database (cached (database_name_of it) s) !! name)) as Hk.
    { destruct (decide (database_name_of it = name)) as [<-|Hne].
      - rewrite cached_lookup. by eexists.
      - by rewrite cached_lookup_ne. }
    destruct (contains _ _); [done|]. by apply alter_keeps_key. }
  unfold place_item, bind. rewrite assign_sequence_spec.
  assert (∀ s1 sequence r',
            is_Some (database s1 !! name) →
            place_file options it sequence s1 = (s', r') →
            is_Some (database s' !! name)) as Hfile.
  { intros s1 sequence r' Hs1. rewrite place_file_spec.
    destruct (contains (files s1) _); [by intros [= <- <-]|].
    destruct (files s1 !! target_location it); intros [= <- <-];
      by apply alter_keeps_key. }
  destruct (live_map s !! common_path_of it) as [[sequence rc]|].
  - destruct (_ =? 0); eapply Hfile; [|done].
    by apply alter_keeps_key.
  - by intros [= <- <-].
Qed.

End whole_run.

(** * Further properties *)

(** ** Strings: [rfind] and slices *)

Lemma string_app_cons (x : ascii) (a b : string) :
  String x a +:+ b = String x (a +:+ b).
Proof. reflexivity. Qed.

Lemma string_app_nil_l (b : string) : "" +:+ b = b.
Proof. reflexivity. Qed.

Lemma string_app_nil_r (s : string) : s +:+ "" = s.
Proof.
  induction s as [|a s IH]; [done|]. by rewrite string_app_cons, IH.
Qed.

Lemma string_app_assoc (a b c : string) : (a +:+ b) +:+ c = a +:+ (b +:+ c).
Proof.
  induction a as [|x a IH]; [done|]. by rewrite !string_app_cons, IH.
Qed.

Lemma string_app_length (a b : string) :
  String.length (a +:+ b) = (String.length a + String.length b)%nat.
Proof.
  induction a as [|x a IH]; [done|]. rewrite string_app_cons. simpl.
  by rewrite IH.
Qed.

Lemma string_app_inv_head (s a b : string) : s +:+ a = s +:+ b → a = b.
Proof.
  induction s as [|x s IH]; [done|]. rewrite !string_app_cons.
  intros [= H]. by apply IH.
Qed.

Lemma substring_all (s : string) : String.substring 0 (String.length s) s = s.
Proof. induction s as [|x s IH]; simpl; [done|]. by rewrite IH. Qed.

Lemma substring_prefix (a b : string) :
  String.substring 0 (String.length a) (a +:+ b) = a.
Proof.
  induction a as [|x a IH].
  - rewrite string_app_nil_l. by destruct b.
  - rewrite string_app_cons. simpl. by rewrite IH.
Qed.

Lemma substring_suffix (a b : string) :
  String.substring (String.length a) (String.length b) (a +:+ b) = b.
Proof.
  induction a as [|x a IH]; [apply substring_all|].
  rewrite string_app_cons. simpl. apply IH.
Qed.

Lemma rfind_from_absent (c : ascii) (s : string) (i last : Z) :
  has_char c s = false → rfind_from c s i last = last.
Proof.
  revert i last. induction s as [|a s IH]; intros i last; simpl; [done|].
  intros [Ha Hs]%orb_false_iff. rewrite Ha. by apply IH.
Qed.

Lemma rfind_from_last (c : ascii) (a b : string) (i last : Z) :
  has_char c b = false →
  rfind_from c (a +:+ String c b) i last = i + len a.
Proof.
  intros Hb. revert i last. induction a as [|x a IH]; intros i last.
  - rewrite string_app_nil_l. simpl.
    rewrite Ascii.eqb_refl, rfind_from_absent by done. unfold len. simpl. lia.
  - rewrite string_app_cons. simpl. rewrite IH. unfold len. simpl. lia.
Qed.

(** A string that contains [c] splits at its last [c]. *)
Lemma split_at_last (c : ascii) (s : string) :
  has_char c s = true →
  ∃ a b, s = a +:+ String c b ∧ has_char c b = false.
Proof.
  induction s as [|x s IH]; simpl; [done|].
  destruct (has_char c s) eqn:Hs.
  - intros _. destruct IH as (a & b & -> & Hb); [done|].
    by exists (String x a), b.
  - rewrite orb_false_r. intros ->%Ascii.eqb_eq. by exists EmptyString, s.
Qed.

Lemma rfind_range (s : string) (c : ascii) : -1 ≤ rfind s c < len s.
Proof.
  unfold rfind. destruct (has_char c s) eqn:Hs.
  - apply split_at_last in Hs as (a & b & -> & Hb).
    rewrite rfind_from_last by done. unfold len.
    rewrite string_app_length. simpl. lia.
  - rewrite rfind_from_absent by done. unfold len. lia.
Qed.

Lemma clip_nonneg (s : string) (k : nat) :
  (k ≤ String.length s)%nat → clip s (Z.of_nat k) = k.
Proof.
  intros Hk. unfold clip, len.
  destruct (Z.ltb_spec (Z.of_nat k) 0); [lia|]. lia.
Qed.

(** X1: a source path that contains a dot is cut at its last dot: the
    companion key, a dot and the extension give the path back, and the
    extension has no dot. *)
Theorem path_splits_at_last_dot (it : item) :
  has_char "." (target_location it) = true →
  common_path_of it +:+ "." +:+ extension_of it = target_location it
  ∧ has_char "." (extension_of it) = false.
Proof.
  intros (a & b & Hs & Hb)%split_at_last.
  unfold common_path_of, extension_of, rfind. rewrite Hs.
  rewrite rfind_from_last by done. rewrite Z.add_0_l.
  assert (String.length (a +:+ String "." b)
          = (String.length a + 1 + String.length b)%nat) as Hlen.
  { rewrite string_app_length. simpl. lia. }
  assert (slice_to (a +:+ String "." b) (len a) = a) as ->.
  { unfold slice_to, len. rewrite clip_nonneg by lia. apply substring_prefix. }
  assert (slice_from (a +:+ String "." b) (len a + 1) = b) as ->.
  { unfold slice_from, len.
    replace (Z.of_nat (String.length a) + 1)
      with (Z.of_nat (String.length a + 1)) by lia.
    rewrite clip_nonneg by lia.
    replace (a +:+ String "." b) with ((a +:+ ".") +:+ b)
      by (by rewrite string_app_assoc).
    replace (String.length ((a +:+ ".") +:+ b) - (String.length a + 1))%nat
      with (String.length b)
      by (rewrite !string_app_length; simpl; lia).
    replace (String.length a + 1)%nat with (String.length (a +:+ "."))
      by (rewrite string_app_length; simpl; lia).
    apply substring_suffix. }
  done.
Qed.

Lemma path_splits_witness :
  common_path_of pair_item +:+ "." +:+ extension_of pair_item
  = target_location pair_item
  ∧ has_char "." (extension_of pair_item) = false.
Proof. apply (path_splits_at_last_dot pair_item). reflexivity. Defined.

(** X2: on a source path without any dot, [rfind] gives -1: the extension
    is the whole path and the companion key is the path without its last
    character. *)
Theorem dotless_path_loses_last_character (it : item) :
  has_char "." (target_location it) = false →
  extension_of it = target_location it
  ∧ (∀ stem c, target_location it = snoc_char stem c →
       common_path_of it = stem)
  ∧ (target_location it = "" → common_path_of it = "").
Proof.
  intros Hs. unfold common_path_of, extension_of, rfind.
  rewrite rfind_from_absent by done. split; [|split].
  - unfold slice_from. change (-1 + 1) with (Z.of_nat 0).
    rewrite clip_nonneg by lia. rewrite Nat.sub_0_r. apply substring_all.
  - intros stem c ->. unfold slice_to, clip, len, snoc_char.
    rewrite string_app_length. simpl.
    replace (Z.to_nat (Z.max 0 (Z.of_nat (String.length stem + 1) + -1)))
      with (String.length stem) by lia.
    apply substring_prefix.
  - by intros ->.
Qed.

Lemma dotless_path_witness :
  extension_of dotless_item = "/in/README"
  ∧ common_path_of dotless_item = "/in/READM".
Proof.
  destruct (dotless_path_loses_last_character dotless_item) as (He & Hc & _).
  - reflexivity.
  - split; [exact He|]. apply (Hc "/in/READM" "E"%char). reflexivity.
Defined.

(** ** The number field of a destination name *)

Lemma string_app_inv_tail (a b t : string) : a +:+ t = b +:+ t → a = b.
Proof.
  revert b. induction a as [|x a IH]; intros [|y b] H.
  - done.
  - apply (f_equal String.length) in H.
    rewrite string_app_cons, string_app_nil_l in H. simpl in H.
    rewrite string_app_length in H. lia.
  - apply (f_equal String.length) in H.
    rewrite string_app_cons, string_app_nil_l in H. simpl in H.
    rewrite string_app_length in H. lia.
  - rewrite !string_app_cons in H. injection H as -> H. f_equal. by apply IH.
Qed.

Lemma decode_zeros (k : nat) (s : string) :
  decode_decimal (zeros k +:+ s) = decode_decimal s.
Proof.
  unfold decode_decimal. induction k as [|k IH]; [done|].
  simpl zeros. rewrite string_app_cons. simpl NilEmpty.uint_of_string.
  destruct (NilEmpty.uint_of_string (zeros k +:+ s)) as [d|] eqn:Hd;
    destruct (NilEmpty.uint_of_string s) as [d'|] eqn:Hd'; simpl in *;
    try done.
Qed.

Lemma decode_digits (n : N) :
  decode_decimal (NilZero.string_of_uint (N.to_uint n)) = Some n.
Proof.
  unfold decode_decimal. pose proof (DecimalN.Unsigned.of_to n) as Hn.
  destruct (N.to_uint n) as [|d|d|d|d|d|d|d|d|d|d];
    cbv beta iota delta [NilZero.string_of_uint];
    [simpl in *; by subst|rewrite NilEmpty.usu; exact (f_equal Some Hn)..].
Qed.

Lemma decode_percent_0d (w : nat) (z : Z) :
  0 ≤ z → decode_decimal (percent_0d w z) = Some (Z.to_N z).
Proof.
  intros Hz. unfold percent_0d.
  destruct (Z.ltb_spec z 0); [lia|].
  rewrite decode_zeros, decode_digits. f_equal. lia.
Qed.

Lemma percent_0d_inj (w : nat) (a b : Z) :
  0 ≤ a → 0 ≤ b → percent_0d w a = percent_0d w b → a = b.
Proof.
  intros Ha Hb H. apply (f_equal decode_decimal) in H.
  rewrite !decode_percent_0d in H by done. injection H as H. lia.
Qed.

(** X3: the sequence number can be read back from the destination name,
    so two different sequence numbers never give the same destination
    for an asset, whatever their size. *)
Theorem distinct_sequences_distinct_destinations (options : ArgumentOptions)
  (it : item) (a b : Z) :
  0 ≤ a → 0 ≤ b → a ≠ b →
  file_name_of it a ≠ file_name_of it b
  ∧ dst_location_of options it a ≠ dst_location_of options it b.
Proof.
  intros Ha Hb Hne.
  assert (file_name_of it a ≠ file_name_of it b) as Hname.
  { unfold file_name_of. intros H.
    apply string_app_inv_head, string_app_inv_head in H.
    rewrite <-!string_app_assoc in H.
    apply string_app_inv_tail, string_app_inv_tail in H.
    by apply percent_0d_inj in H. }
  split; [done|]. unfold dst_location_of. intros H.
  by apply string_app_inv_head, string_app_inv_head in H.
Qed.

Lemma distinct_sequences_witness :
  file_name_of pair_item 9999 ≠ file_name_of pair_item 10000
  ∧ dst_location_of album_options pair_item 9999
    ≠ dst_location_of album_options pair_item 10000.
Proof.
  apply (distinct_sequences_distinct_destinations album_options pair_item
           9999 10000); lia.
Defined.

(** ** The comparison function *)

(** X4: [camera_roll_sort] never answers 0.  On two items that differ in
    timestamp or in path the two answers are opposite; on two items with
    the same timestamp and the same path both answers are -1. *)
Theorem camera_roll_sort_never_zero (a b : item) :
  (camera_roll_sort a b = 1 ∨ camera_roll_sort a b = -1)
  ∧ (timestamp a = timestamp b ∧ target_location a = target_location b →
     camera_roll_sort a b = -1 ∧ camera_roll_sort b a = -1)
  ∧ (timestamp a ≠ timestamp b ∨ target_location a ≠ target_location b →
     camera_roll_sort b a = - camera_roll_sort a b).
Proof.
  unfold camera_roll_sort, str_gt. split; [|split].
  - destruct (negb _); [destruct (_ >? _)|destruct (String.compare _ _)];
      auto.
  - intros [-> ->]. rewrite Z.eqb_refl, string_compare_refl. done.
  - intros Hne. rewrite (Z.eqb_sym (timestamp b)).
    destruct (Z.eqb_spec (timestamp a) (timestamp b)) as [Heq|Hts]; simpl.
    + destruct Hne as [Hne|Hne]; [done|].
      destruct (String.compare (target_location a) (target_location b)) eqn:Hab;
        destruct (String.compare (target_location b) (target_location a))
          eqn:Hba; simpl;
        first [ done
              | by apply String.compare_eq_iff in Hab
              | apply String.compare_eq_iff in Hba; by destruct Hne
              | apply string_compare_lt_gt in Hab; congruence
              | apply string_compare_lt_gt in Hba; congruence ].
    + destruct (Z.gtb_spec (timestamp a) (timestamp b));
        destruct (Z.gtb_spec (timestamp b) (timestamp a)); simpl; lia.
Qed.

(** ** The scan as a whole *)

Lemma scan_asset_result (p : string) (s s' : run_state) (r : result unit) :
  scan_asset p s = (s', r) →
  (is_Some (files s !! p) ∧ r = Ok tt)
  ∨ (files s !! p = None ∧ r = Raise FileNotFoundError ∧ s' = s).
Proof.
  rewrite scan_asset_spec. destruct (files s !! p) as [st|].
  - simpl. destruct (_ || _); intros [= <- <-]; left; by split; [eexists|].
  - intros [= <- <-]. by right.
Qed.

Lemma scan_result (l : list string) (s s' : run_state) (r : result unit) :
  for_each scan_asset l s = (s', r) →
  (r = Ok tt ∧ ∀ p, p ∈ l → is_Some (files s !! p))
  ∨ (r = Raise FileNotFoundError ∧ ∃ p, p ∈ l ∧ files s !! p = None).
Proof.
  revert s. induction l as [|p l IH]; intros s Hrun.
  - injection Hrun as <- <-. left. split; [done|].
    intros p Hp. by apply elem_of_nil in Hp.
  - rewrite for_each_cons in Hrun.
    destruct (scan_asset p s) as [s1 r1] eqn:Hp.
    pose proof (scan_asset_same_world s p s s1 r1) as (_ & Hf & _);
      [by repeat split|done|].
    apply scan_asset_result in Hp as [[Hsome ->]|(Hnone & -> & ->)].
    + destruct (IH _ Hrun) as [[-> Hall]|[-> (q & Hq & Hnone)]].
      * left. split; [done|]. intros q [->|Hq]%elem_of_cons; [done|].
        rewrite <-Hf. by apply Hall.
      * right. split; [done|]. exists q. rewrite <-Hf. split; [by right|done].
    + injection Hrun as <- <-. right. split; [done|]. exists p.
      split; [left|done].
Qed.

Lemma scan_asset_cache_fresh (p : string) (s s' : run_state) (r : result unit) :
  cache_fresh s → scan_asset p s = (s', r) → cache_fresh s'.
Proof.
  intros Hc. rewrite scan_asset_spec.
  assert (∀ n, cache_fresh (cached n s)) as Hk.
  { intros n name c.
    destruct (cached_fields n s) as (_ & _ & _ & _ & -> & _).
    destruct (decide (n = name)) as [->|Hne].
    - rewrite cached_lookup. intros [= <-]. unfold view.
      destruct (database s !! name) eqn:Hl; [by apply Hc|done].
    - rewrite cached_lookup_ne by done. apply Hc. }
  destruct (files s !! p) as [st|]; [|by intros [= <- <-]].
  simpl. destruct (_ || _); intros [= <- <-]; apply Hk.
Qed.

Lemma view_fresh (s : run_state) (name : string) :
  cache_fresh s → view s name = load (disk s) name.
Proof.
  intros Hc. unfold view. destruct (database s !! name) eqn:Hl; [|done].
  by apply Hc.
Qed.

Lemma scan_counts (l : list string) (s s' : run_state) :
  for_each scan_asset l s = (s', Ok tt) →
  (length (increment_list s') + dup_count s'
   = length (increment_list s) + dup_count s + length l)%nat
  ∧ ∃ k, target_location <$> increment_list s'
         = (target_location <$> increment_list s) ++ k
         ∧ k `sublist_of` l.
Proof.
  revert s. induction l as [|p l IH]; intros s Hrun.
  - injection Hrun as <-. split; [simpl; lia|]. exists [].
    by rewrite app_nil_r.
  - rewrite for_each_cons, scan_asset_spec in Hrun.
    destruct (files s !! p) as [st|]; [|done]. simpl in Hrun.
    destruct (cached_fields (str (tm_year (st_mtime st))) s)
      as (Hi & _ & _ & _ & _ & _ & Hout & _).
    destruct (_ || _); apply IH in Hrun as (Hlen & k & Hk & Hsub).
    + unfold dup_count in *. simpl in *.
      rewrite Hi, Hout, List.filter_app in Hlen. simpl in Hlen.
      rewrite length_app in Hlen. simpl in Hlen.
      rewrite Hi in Hk. split; [lia|]. exists k. split; [done|].
      by apply sublist_cons.
    + unfold dup_count in *. simpl in *.
      rewrite Hi, Hout, length_app in Hlen. simpl in Hlen.
      rewrite Hi, fmap_app in Hk. simpl in Hk. rewrite <-app_assoc in Hk.
      split; [lia|]. exists (p :: k). split; [done|]. by apply sublist_skip.
Qed.

(** X5: a scan that completes accounts for every path of the list: each
    one is either accepted or reported as a duplicate, and the accepted
    paths are a sub-list of the input, in the input's order. *)
Theorem scan_accounts_for_every_path (fs : gmap string file_stat)
  (d : gmap string stored) (asset_list : list string) (s' : run_state) :
  for_each scan_asset asset_list (init_state fs d) = (s', Ok tt) →
  (length (increment_list s') + dup_count s' = length asset_list)%nat
  ∧ target_location <$> increment_list s' `sublist_of` asset_list
  ∧ ∀ p, p ∈ asset_list → is_Some (fs !! p).
Proof.
  intros Hrun. destruct (scan_counts _ _ _ Hrun) as (Hlen & k & Hk & Hsub).
  split; [exact Hlen|]. split; [by rewrite Hk|].
  destruct (scan_result _ _ _ _ Hrun) as [[_ Hall]|[? _]]; [exact Hall|done].
Qed.

Lemma scan_accounts_witness :
  (length (increment_list
             (fst (for_each scan_asset ["/in/IMG_0001.JPG"]
                     (init_state reimported_files catalog_2023))))
   + dup_count (fst (for_each scan_asset ["/in/IMG_0001.JPG"]
                       (init_state reimported_files catalog_2023))) = 1)%nat.
Proof.
  destruct (scan_accounts_for_every_path reimported_files catalog_2023
              ["/in/IMG_0001.JPG"]
              (fst (for_each scan_asset ["/in/IMG_0001.JPG"]
                      (init_state reimported_files catalog_2023))))
    as (Hlen & _).
  - vm_compute. reflexivity.
  - exact Hlen.
Defined.

(** X6: the accepted assets of a run have pairwise distinct fingerprints,
    and none of these fingerprints is in the stored HashIndex of the
    asset's year. *)
Theorem survivors_are_new_and_distinct (fs : gmap string file_stat)
  (d : gmap string stored) (asset_list : list string) :
  NoDup (digest <$> survivors fs d asset_list)
  ∧ ∀ it, it ∈ survivors fs d asset_list →
      contains (hash (load d (database_name_of it))) (digest it) = false.
Proof.
  unfold survivors.
  destruct (for_each scan_asset asset_list (init_state fs d)) as [s' r] eqn:Hrun.
  simpl. split.
  - eapply (for_each_inv accepted_inv); [|..|exact Hrun].
    + intros. by eapply scan_asset_accepted_inv.
    + split; [constructor|]. intros it Hit. by apply elem_of_nil in Hit.
  - pose proof (scan_same_world _ _ _ _ Hrun) as (_ & _ & Hd & _).
    simpl in Hd. rewrite <-Hd.
    eapply (for_each_inv
              (λ s, cache_fresh s
                    ∧ ∀ it, it ∈ increment_list s →
                        contains (hash (load (disk s) (database_name_of it)))
                          (digest it) = false)); [|..|exact Hrun].
    + clear. intros p s s' r [Hc IH] Hstep.
      split; [by eapply scan_asset_cache_fresh|].
      revert Hstep. rewrite scan_asset_spec.
      destruct (files s !! p) as [st|]; [|by intros [= <- <-]].
      destruct (cached_fields (str (tm_year (st_mtime st))) s)
        as (Hi & _ & _ & _ & Hd & _).
      simpl.
      destruct (contains (hash _) _ || contains (accept_map s) _) eqn:Hdup;
        intros [= <- <-]; simpl; rewrite ?Hi, ?Hd; [done|].
      intros it [Hit|Hit]%elem_of_app; [by apply IH|].
      apply list_elem_of_singleton in Hit. subst it.
      apply orb_false_iff in Hdup as [Hdup _].
      by rewrite view_fresh in Hdup.
    + split; [|intros it Hit; by apply elem_of_nil in Hit].
      intros name c H. simpl in H. by rewrite lookup_empty in H.
Qed.

Section missing_source.

Context {clock : Clock}.

(** ** The whole command, again *)

Lemma scan_cache_fresh (l : list string) (fs : gmap string file_stat)
  (d : gmap string stored) (s' : run_state) (r : result unit) :
  for_each scan_asset l (init_state fs d) = (s', r) → cache_fresh s'.
Proof.
  apply (for_each_inv cache_fresh).
  - intros. by eapply scan_asset_cache_fresh.
  - intros name c H. simpl in H. by rewrite lookup_empty in H.
Qed.

(** X7: when a path of the source list names no file, the run raises
    [FileNotFoundError] during the scan: nothing is copied or moved, and no
    catalog is written. *)
Theorem missing_source_stops_the_run (options : ArgumentOptions)
  (fs : gmap string file_stat) (d : gmap string stored)
  (asset_list : list string) (p : string) :
  p ∈ asset_list → fs !! p = None →
  let r := import_assets options asset_list (init_state fs d) in
  snd r = Raise FileNotFoundError
  ∧ ops (fst r) = [] ∧ files (fst r) = fs ∧ disk (fst r) = d.
Proof.
  intros Hp Hnone.
  destruct (for_each scan_asset asset_list (init_state fs d)) as [s1 r1] eqn:Hscan.
  destruct (scan_same_world _ _ _ _ Hscan) as (_ & Hf & Hd & Ho & _).
  destruct (scan_result _ _ _ _ Hscan) as [[_ Hall]|[-> _]].
  { destruct (Hall p Hp) as [st Hst]. simpl in Hst. congruence. }
  assert (import_assets options asset_list (init_state fs d)
          = (s1, Raise FileNotFoundError)) as ->.
  { unfold import_assets. by apply bind_raise. }
  done.
Qed.

End missing_source.

Lemma missing_source_witness :
  let r := import_assets album_options with_missing_path
             (init_state reimported_files ∅) in
  snd r = Raise FileNotFoundError
  ∧ ops (fst r) = [] ∧ files (fst r) = reimported_files ∧ disk (fst r) = ∅.
Proof.
  apply (missing_source_stops_the_run album_options reimported_files ∅
           with_missing_path "/in/IMG_9999.JPG").
  - vm_compute. right. left.
  - reflexivity.
Defined.

Section one_placement.

Context {clock : Clock}.

Lemma import_assets_without_survivors (options : ArgumentOptions)
  (fs : gmap string file_stat) (d : gmap string stored)
  (asset_list : list string) (s1 : run_state) :
  for_each scan_asset asset_list (init_state fs d) = (s1, Ok tt) →
  increment_list s1 = [] →
  ∃ s',
    import_assets options asset_list (init_state fs d) = (s', Ok tt)
    ∧ files s' = files s1 ∧ ops s' = ops s1
    ∧ ∀ name, load (disk s') name = load (disk s1) name.
Proof.
  intros Hscan Hi.
  pose proof (scan_cache_fresh _ _ _ _ _ Hscan) as Hfresh.
  unfold import_assets, bind at 1. rewrite Hscan.
  unfold bind at 1, modify at 1, bind at 1, gets at 1. simpl. rewrite Hi. simpl.
  unfold bind at 1, ret at 1, bind at 1, gets at 1.
  destruct (write_back_spec (map_to_list (database s1))
              (set_increment_list
                 (list_sort (cmp_to_key_lt camera_roll_sort)) s1))
    as (s' & Hw & Hf' & Ho' & Hl).
  exists s'. split; [exact Hw|]. simpl in *.
  split; [done|]. split; [done|].
  intros name. apply Hl. intros n c Hn.
  apply elem_of_map_to_list in Hn. by apply Hfresh.
Qed.

(** X8: whatever the source list, a run started with an empty companion
    table copies and moves nothing, leaves the files as they were, and
    leaves every catalog reading back as before; it ends normally only
    when no asset was accepted. *)
Theorem import_assets_changes_nothing (options : ArgumentOptions)
  (fs : gmap string file_stat) (d : gmap string stored)
  (asset_list : list string) :
  let r := import_assets options asset_list (init_state fs d) in
  ops (fst r) = []
  ∧ files (fst r) = fs
  ∧ (∀ name, load (disk (fst r)) name = load d name)
  ∧ (snd r = Ok tt → survivors fs d asset_list = []).
Proof.
  destruct (for_each scan_asset asset_list (init_state fs d)) as [s1 r1] eqn:Hscan.
  destruct (scan_same_world _ _ _ _ Hscan) as (_ & Hf & Hd & Ho & _).
  pose proof (scan_cache_fresh _ _ _ _ _ Hscan) as Hfresh.
  simpl in Hf, Hd, Ho.
  destruct r1 as [[]|e].
  - destruct (survivors fs d asset_list) as [|it0 l0] eqn:Hsurv.
    + unfold survivors in Hsurv. rewrite Hscan in Hsurv. simpl in Hsurv.
      destruct (import_assets_without_survivors options fs d asset_list s1)
        as (s' & -> & Hf' & Ho' & Hl); [done..|].
      simpl. split; [by rewrite Ho', Ho|]. split; [by rewrite Hf', Hf|].
      split; [|done]. intros name. by rewrite Hl, Hd.
    + destruct (import_assets_raises_on_first_survivor options fs d asset_list)
        as (Hr & Ho' & Hf' & Hd' & _).
      * by rewrite Hscan.
      * by rewrite Hsurv.
      * cbv zeta. rewrite Hr, Ho', Hf', Hd'. done.
  - assert (import_assets options asset_list (init_state fs d)
            = (s1, Raise e)) as ->.
    { unfold import_assets. by apply bind_raise. }
    simpl. by rewrite Ho, Hf, Hd.
Qed.

(** ** One placement *)


End one_placement.


(** ** Companion groups beyond the pair *)

(** X10: when a member finds the count of its companion group at 2 or
    more, it takes a fresh sequence number and the count restarts at 1, so
    the next member of the group takes that same number, whatever its own
    label, and the counter moves once for the two of them. *)
Theorem fourth_member_pairs_with_third (it3 it4 : item) (s : run_state)
  (sequence reference_count : Z) :
  live_map s !! common_path_of it3 = Some (sequence, reference_count) →
  2 ≤ reference_count →
  common_path_of it4 = common_path_of it3 →
  counter s (database_name_of it3) (label_of it3) ≠ 0 →
  let fresh := counter s (database_name_of it3) (label_of it3) in
  ∃ s1 s2,
    assign_sequence it3 s = (s1, Ok fresh)
    ∧ assign_sequence it4 s1 = (s2, Ok fresh)
    ∧ live_map s2 !! common_path_of it3 = Some (fresh, 2)
    ∧ counter s2 (database_name_of it3) (label_of it3) = fresh + 1
    ∧ allocated s2
      = allocated s ++ [(database_name_of it3, label_of it3, fresh)].
Proof.
  intros Hlive Hrc Hkey Hnz fresh.
  destruct (assign_sequence_later_member it3 s sequence reference_count)
    as (s1 & H3 & Hl1 & Hc1 & Ha1); [done..|].
  destruct (assign_sequence_second_member it4 s1 fresh)
    as (s2 & H4 & Hl2 & Hc2 & Ha2); [by rewrite Hkey|done|].
  exists s1, s2. split; [done|]. split; [done|].
  split; [by rewrite <-Hkey|]. split; [by rewrite Hc2|by rewrite Ha2].
Qed.

Lemma fourth_member_witness :
  ∃ s1 s2,
    assign_sequence third_member (after_pair_with heic_only) = (s1, Ok 2)
    ∧ assign_sequence fourth_member s1 = (s2, Ok 2)
    ∧ live_map s2 !! "/in/IMG_0001" = Some (2, 2)
    ∧ counter s2 "2023" "202305" = 3
    ∧ allocated s2 = [("2023", "202305", 1); ("2023", "202305", 2)].
Proof.
  apply (fourth_member_pairs_with_third third_member fourth_member
           (after_pair_with heic_only) 1 2).
  - reflexivity.
  - lia.
  - reflexivity.
  - vm_compute. discriminate.
Defined.

(** ** Split: order of the writes and a missing directory *)

Lemma group_by_years_in_order {X} (year : X → string) (d : list X) :
  (group_by year d).*1 = years_in_order (year <$> d).
Proof.
  unfold years_in_order. induction d as [|x d IH] using rev_ind; [done|].
  rewrite group_by_snoc, keys_group_append, fmap_app, fold_left_app, IH.
  done.
Qed.

Lemma group_catalog (index_map : list (string * Z))
  (hash_map : list (string * string)) (y : string) :
  NoDup index_map.*1 → NoDup hash_map.*1 →
  MiniDatabase
    (build_dict (default [] (dict_get y (group_by index_year index_map))))
    (build_dict (default [] (dict_get y (group_by hash_year hash_map))))
  = year_catalog index_map hash_map y.
Proof.
  intros Hni Hnh. unfold year_catalog. rewrite !dict_get_group_by.
  f_equal.
  - destruct (filter (λ e, index_year e = y) index_map) as [|a l] eqn:Hf;
      [done|]. simpl. apply build_dict_id. rewrite <-Hf.
    by apply filter_keys_NoDup.
  - destruct (filter (λ e, hash_year e = y) hash_map) as [|a l] eqn:Hf;
      [done|]. simpl. apply build_dict_id. rewrite <-Hf.
    by apply filter_keys_NoDup.
Qed.

Lemma write_years_stops (path_exists : string → bool) (project_path : string)
  (gi : list (string * list (string * Z)))
  (gh : list (string * list (string * string)))
  (before after : list string) (year : string)
  (written : list (string * mini_database)) :
  Forall (λ y, path_exists (path_join project_path y) = true
               ∧ is_Some (dict_get y gi) ∧ is_Some (dict_get y gh)) before →
  path_exists (path_join project_path year) = false →
  write_years path_exists project_path gi gh (before ++ year :: after) written
  = (written ++ ((λ y, (y, MiniDatabase
                         (build_dict (default [] (dict_get y gi)))
                         (build_dict (default [] (dict_get y gh))))) <$> before),
     Raise AssertionError).
Proof.
  revert written. induction before as [|y before IH]; intros written Hall Hno;
    simpl.
  - by rewrite Hno, app_nil_r.
  - apply Forall_cons in Hall as [(-> & [li ->] & [lh ->]) Hall]. simpl.
    rewrite IH by done. by rewrite <-app_assoc.
Qed.

(** X11: the split is not atomic.  The years are handled in the order of
    their first appearance in the SequenceIndex; at the first year whose
    directory does not exist the command raises [AssertionError], the
    catalogs of the years before it have been written and those of the
    later years have not. *)
Theorem split_stops_at_first_missing_directory (path_exists : string → bool)
  (project_path : string) (index_map : list (string * Z))
  (hash_map : list (string * string)) (before after : list string)
  (year : string) :
  NoDup index_map.*1 → NoDup hash_map.*1 →
  hash_map ≠ [] → same_years index_map hash_map →
  years_in_order (index_year <$> index_map) = before ++ year :: after →
  (∀ y, y ∈ before → path_exists (path_join project_path y) = true) →
  path_exists (path_join project_path year) = false →
  seperate_database path_exists project_path
    (Parsed (Some index_map) (Some hash_map))
  = ((λ y, (y, year_catalog index_map hash_map y)) <$> before,
     Raise AssertionError).
Proof.
  intros Hni Hnh Hh Hsame Hyears Hdirs Hno. unfold seperate_database.
  destruct index_map as [|ei index_map].
  { by destruct before. }
  destruct hash_map as [|eh hash_map]; [done|].
  set (im := ei :: index_map) in *. set (hm := eh :: hash_map) in *.
  assert (∀ k, k ∈ (group_by hash_year hm).*1
               ↔ k ∈ (group_by index_year im).*1) as Hkeys.
  { intros k. rewrite (group_by_keys hash_year hm k).
    rewrite (group_by_keys index_year im k). symmetry. apply Hsame. }
  rewrite (proj2 (keys_eq_spec _ _) Hkeys). simpl.
  rewrite group_by_years_in_order, Hyears.
  rewrite write_years_stops; [|..|done].
  - simpl. f_equal. apply list_fmap_ext. intros i y _. simpl. f_equal.
    by apply group_catalog.
  - apply Forall_forall. intros y Hy. split; [by apply Hdirs|].
    assert (y ∈ (group_by index_year im).*1) as Hin.
    { rewrite group_by_years_in_order, Hyears. apply elem_of_app. by left. }
    split; [by apply dict_get_keys|by apply dict_get_keys, Hkeys].
Qed.

Lemma split_stops_witness :
  seperate_database only_2023 "/album"
    (Parsed (Some aggregate_index) (Some aggregate_hash))
  = ((λ y, (y, year_catalog aggregate_index aggregate_hash y)) <$> ["2023"],
     Raise AssertionError).
Proof.
  apply (split_stops_at_first_missing_directory only_2023 "/album"
           aggregate_index aggregate_hash ["2023"] [] "2022").
  - apply (bool_decide_unpack _). vm_compute. exact I.
  - apply (bool_decide_unpack _). vm_compute. exact I.
  - discriminate.
  - intros y. vm_compute. split; intros H;
      repeat (apply elem_of_cons in H as [->|H]; [set_solver|]);
      by apply elem_of_nil in H.
  - vm_compute. reflexivity.
  - intros y ->%list_elem_of_singleton. reflexivity.
  - reflexivity.
Defined.

(** ** Import and split agree on the year *)

Lemma four_digit_year (y : Z) :
  1000 ≤ y ≤ 9999 →
  percent_0d 4 y = str y ∧ percent_0d 2 y = str y
  ∧ String.length (str y) = 4%nat.
Proof.
  intros Hy.
  assert (forallb
            (λ y, String.eqb (percent_0d 4 y) (str y)
                  && String.eqb (percent_0d 2 y) (str y)
                  && Nat.eqb (String.length (str y)) 4)
            (seqZ 1000 9000) = true) as Hall by (vm_compute; reflexivity).
  rewrite forallb_forall in Hall.
  assert (In y (seqZ 1000 9000)) as Hin
    by (apply list_elem_of_In, elem_of_seqZ; lia).
  apply Hall in Hin. apply andb_true_iff in Hin as [Hin Hlen].
  apply andb_true_iff in Hin as [H4 H2].
  apply String.eqb_eq in H4, H2. apply Nat.eqb_eq in Hlen. done.
Qed.

Lemma slice_to_prefix (a b : string) :
  slice_to (a +:+ b) (len a) = a.
Proof.
  unfold slice_to, len. rewrite clip_nonneg.
  - apply substring_prefix.
  - rewrite string_app_length. lia.
Qed.

(** X12: for an asset last modified in a four-digit year, the year that
    [seperate_database] reads from the label and from the destination name
    ([name[:4]]) is the name under which [import_assets] keeps the asset's
    catalog, and the year directory of the destination carries the same
    name. *)
Theorem import_and_split_agree_on_year (options : ArgumentOptions) (it : item)
  (sequence counter_value : Z) :
  1000 ≤ tm_year (mtime it) ≤ 9999 →
  index_year (label_of it, counter_value) = database_name_of it
  ∧ hash_year (digest it, file_name_of it sequence) = database_name_of it
  ∧ (with_date options = false →
     dst_group_location_of options it
     = path_join (work_path options) (project_name options) +:+ "/"
       +:+ database_name_of it).
Proof.
  intros Hy. destruct (four_digit_year _ Hy) as (H4 & H2 & Hlen).
  unfold index_year, hash_year, database_name_of, file_name_of, label_of,
    dst_group_location_of. simpl. rewrite H2, H4.
  assert (4 = len (str (tm_year (mtime it)))) as -> by (unfold len; lia).
  split; [apply slice_to_prefix|]. split.
  - rewrite string_app_assoc. apply slice_to_prefix.
  - by intros ->.
Qed.

Lemma import_and_split_agree_witness :
  index_year (label_of pair_item, 2) = "2023"
  ∧ hash_year (digest pair_item, file_name_of pair_item 1) = "2023"
  ∧ (with_date album_options = false →
     dst_group_location_of album_options pair_item
     = path_join (work_path album_options) (project_name album_options)
       +:+ "/" +:+ "2023").
Proof.
  apply (import_and_split_agree_on_year album_options pair_item 1 2).
  vm_compute. split; discriminate.
Defined.

(** ** The order of discovery, for the whole pipeline *)

Lemma scan_without_batch_duplicates (l : list string) (s : run_state) :
  cache_fresh s →
  (∀ p, p ∈ l → is_Some (files s !! p)) →
  NoDup (fingerprint_at (files s) <$> l) →
  (∀ p st, p ∈ l → files s !! p = Some st →
     contains (accept_map s) (md5_hexdigest st) = false) →
  ∃ s',
    for_each scan_asset l s = (s', Ok tt)
    ∧ increment_list s'
      = increment_list s ++ omap (candidate (files s) (disk s)) l.
Proof.
  revert s. induction l as [|p l IH]; intros s Hfresh Hex Hnd Hacc.
  - exists s. by rewrite app_nil_r.
  - destruct (Hex p) as [st Hst]; [left|].
    rewrite fmap_cons in Hnd. apply NoDup_cons in Hnd as [Hp Hnd].
    rewrite for_each_cons.
    destruct (scan_asset p s) as [s1 r1] eqn:Hstep.
    pose proof (scan_asset_cache_fresh _ _ _ _ Hfresh Hstep) as Hfresh1.
    pose proof (scan_asset_same_world s p s s1 r1) as (_ & Hf & Hd & _);
      [by repeat split|done|].
    rewrite scan_asset_spec, Hst in Hstep. simpl in Hstep.
    rewrite view_fresh, (Hacc p st), orb_false_r in Hstep by (done || left).
    assert (∀ q st', q ∈ l → files s !! q = Some st' →
              md5_hexdigest st' ≠ md5_hexdigest st) as Hother.
    { intros q st' Hq Hq' Heq. apply Hp. apply list_elem_of_fmap.
      exists q. split; [|done]. unfold fingerprint_at.
      rewrite Hst, Hq'. simpl. by rewrite Heq. }
    destruct (cached_fields (str (tm_year (st_mtime st))) s)
      as (Hi & Ha & _).
    assert (r1 = Ok tt) as ->.
    { revert Hstep. destruct (contains (hash _) _); by intros [= _ <-]. }
    destruct (IH s1) as (s' & -> & Hs'); try done.
    + intros q Hq. rewrite Hf. apply Hex. by right.
    + by rewrite Hf.
    + intros q st' Hq Hq'. rewrite Hf in Hq'.
      destruct (contains (hash _) _); injection Hstep as <-; simpl;
        rewrite ?Ha.
      * apply (Hacc q); [by right|done].
      * rewrite contains_insert, decide_False
          by (intros Heq; by apply (Hother q st')).
        apply (Hacc q); [by right|done].
    + exists s'. split; [done|]. rewrite Hs', Hf, Hd. simpl.
      unfold candidate at 2. rewrite Hst.
      destruct (contains (hash _) _); injection Hstep as <-; simpl;
        rewrite Hi; [done|]. by rewrite <-app_assoc.
Qed.

(** X13: when the listed files all exist and no two of them have the same
    fingerprint, the sorted survivor list does not depend on the order of
    the source list: any rearrangement of the list gives the same result. *)
Theorem pipeline_ignores_discovery_order (fs : gmap string file_stat)
  (d : gmap string stored) (asset_list asset_list' : list string) :
  asset_list ≡ₚ asset_list' →
  (∀ p, p ∈ asset_list → is_Some (fs !! p)) →
  NoDup (fingerprint_at fs <$> asset_list) →
  ordered fs d asset_list = ordered fs d asset_list'
  ∧ survivors fs d asset_list = omap (candidate fs d) asset_list.
Proof.
  intros Hperm Hex Hnd.
  assert (∀ l, l ≡ₚ asset_list →
               survivors fs d l = omap (candidate fs d) l) as Hsurv.
  { intros l Hl. unfold survivors.
    destruct (scan_without_batch_duplicates l (init_state fs d))
      as (s' & -> & Hs').
    - intros name c H. simpl in H. by rewrite lookup_empty in H.
    - intros p Hp. apply Hex. by rewrite <-Hl.
    - simpl. by rewrite Hl.
    - done.
    - simpl in *. by rewrite Hs'. }
  split; [|by apply Hsurv].
  unfold ordered. apply list_sort_order_independent.
  - apply survivors_NoDup.
  - rewrite !Hsurv by done. by rewrite Hperm.
Qed.

Lemma pipeline_order_witness :
  ordered may_files ∅ ["/in/C.jpg"; "/in/A.JPG"; "/in/B.MOV"]
  = ordered may_files ∅ ["/in/A.JPG"; "/in/B.MOV"; "/in/C.jpg"].
Proof.
  apply (pipeline_ignores_discovery_order may_files ∅
           ["/in/C.jpg"; "/in/A.JPG"; "/in/B.MOV"]
           ["/in/A.JPG"; "/in/B.MOV"; "/in/C.jpg"]).
  - apply (Permutation_cons_append ["/in/A.JPG"; "/in/B.MOV"] "/in/C.jpg").
  - intros p Hp. apply (bool_decide_unpack _).
    repeat (apply elem_of_cons in Hp as [->|Hp]; [by vm_compute|]).
    by apply elem_of_nil in Hp.
  - apply (bool_decide_unpack _). vm_compute. exact I.
Defined.

(** ** Import from another project *)

Lemma filter_all {A} (P : A → Prop) `{∀ x, Decision (P x)} (l : list A) :
  (∀ x, P x) → filter P l = l.
Proof.
  intros HP. induction l as [|x l IH]; [done|].
  by rewrite filter_cons_True, IH.
Qed.

Lemma filter_none {A} (P : A → Prop) `{∀ x, Decision (P x)} (l : list A) :
  (∀ x, ¬ P x) → filter P l = [].
Proof.
  intros HP. induction l as [|x l IH]; [done|].
  by rewrite filter_cons_False.
Qed.

Section project_facts.

Variable year_pattern : string → bool.
Variable src : string → Split.aggregate.

Lemma queue_entries_spec (project_path year : string)
  (dst_hash_map : gmap string string) (entries : list (string * string))
  (asset_list printed : list string) :
  Project.queue_entries project_path year dst_hash_map entries asset_list
    printed
  = (asset_list
     ++ ((λ e, Project.entry_path project_path year (snd e))
           <$> filter (λ e, contains dst_hash_map (fst e) = false) entries),
     printed
     ++ ((λ e, Project.entry_path project_path year (snd e))
           <$> filter (λ e, contains dst_hash_map (fst e) = true) entries)).
Proof.
  revert asset_list printed.
  induction entries as [|[fingerprint name] entries IH];
    intros asset_list printed; simpl.
  - by rewrite !app_nil_r.
  - destruct (contains dst_hash_map fingerprint) eqn:Hc; rewrite IH.
    + rewrite filter_cons_False, filter_cons_True by (simpl; congruence).
      by rewrite <-app_assoc.
    + rewrite filter_cons_True, filter_cons_False by (simpl; congruence).
      by rewrite <-app_assoc.
Qed.

Lemma source_entry_cons (project_path : string) (dst : gmap string stored)
  (year : string) (listing : list string) (present : bool) (p : string) :
  source_entry year_pattern src project_path dst (year :: listing) present p
  ↔ source_entry year_pattern src project_path dst [year] present p
    ∨ source_entry year_pattern src project_path dst listing present p.
Proof.
  unfold source_entry. split.
  - intros (y & f & n & es & im & [->|Hy]%elem_of_cons & H).
    + left. exists year, f, n, es, im. split; [left|done].
    + right. by exists y, f, n, es, im.
  - intros [(y & f & n & es & im & ->%list_elem_of_singleton & H)
           |(y & f & n & es & im & Hy & H)].
    + exists year, f, n, es, im. split; [left|done].
    + exists y, f, n, es, im. split; [by right|done].
Qed.

Lemma queue_years_spec (project_path : string) (dst : gmap string stored)
  (listing asset_list printed asset_list' printed' : list string) :
  Project.queue_years year_pattern src project_path dst listing asset_list
    printed = (asset_list', printed', None) →
  ∃ queued reported,
    asset_list' = asset_list ++ queued ∧ printed' = printed ++ reported
    ∧ (∀ p, p ∈ queued
            ↔ source_entry year_pattern src project_path dst listing false p)
    ∧ (∀ p, p ∈ reported
            ↔ source_entry year_pattern src project_path dst listing true p).
Proof.
  revert asset_list printed.
  induction listing as [|year listing IH]; intros asset_list printed; simpl.
  - intros [= <- <-]. exists [], []. rewrite !app_nil_r.
    repeat split; try done;
      try (by intros ?%elem_of_nil);
      by intros (? & ? & ? & ? & ? & ?%elem_of_nil & _).
  - assert (∀ present p entries index_map,
              year_pattern year = true →
              src year = Split.Parsed index_map (Some entries) →
              source_entry year_pattern src project_path dst [year] present p
              ↔ p ∈ (λ e, Project.entry_path project_path year (snd e))
                      <$> filter (λ e, contains (hash (load dst year)) (fst e)
                                       = present) entries) as Hone.
    { intros present p entries index_map Hy Hsrc.
      rewrite list_elem_of_fmap. split.
      - intros (y & f & n & es & im & ->%list_elem_of_singleton & _ & Hs
                & Hin & -> & Hc).
        rewrite Hsrc in Hs. injection Hs as <- <-.
        exists (f, n). split; [done|]. by apply list_elem_of_filter.
      - intros ([f n] & -> & [Hc Hin]%list_elem_of_filter).
        exists year, f, n, entries, index_map.
        split; [left|]. done. }
    destruct (year_pattern year) eqn:Hy; simpl.
    2:{ intros Hrun. destruct (IH _ _ Hrun) as (q & r & -> & -> & Hq & Hr).
        exists q, r. split; [done|]. split; [done|].
        split; intros p; rewrite source_entry_cons; [rewrite Hq|rewrite Hr];
          (split; [by right|]);
          (intros [(y & f & n & es & im & ->%list_elem_of_singleton & Hy' & _)
                  |?]; [congruence|done]). }
    destruct (src year) as [| |index_map src_hash_map] eqn:Hsrc; [done..|].
    destruct (dst !! year) as [[|dst_hash_map dst_index]|] eqn:Hdst; [done|..];
      destruct src_hash_map as [entries|]; try done.
    + rewrite queue_entries_spec. intros Hrun.
      destruct (IH _ _ Hrun) as (q & r & -> & -> & Hq & Hr).
      assert (hash (load dst year) = default ∅ dst_hash_map) as Hload
        by (unfold load; by rewrite Hdst).
      eexists _, _. rewrite <-!app_assoc. split; [done|]. split; [done|].
      split; intros p; rewrite source_entry_cons, elem_of_app,
        (Hone _ _ entries index_map), Hload by done;
        [by rewrite Hq|by rewrite Hr].
    + intros Hrun. destruct (IH _ _ Hrun) as (q & r & -> & -> & Hq & Hr).
      assert (hash (load dst year) = ∅) as Hload
        by (unfold load; by rewrite Hdst).
      eexists _, r. rewrite <-!app_assoc. split; [done|]. split; [done|].
      split; intros p; rewrite source_entry_cons,
        (Hone _ _ entries index_map), Hload by done.
      * rewrite elem_of_app, Hq. rewrite filter_all; [done|].
        intros e. unfold contains. by rewrite lookup_empty.
      * rewrite Hr. rewrite filter_none;
          [|intros e; unfold contains; by rewrite lookup_empty].
        rewrite fmap_nil. split; [by right|].
        intros [?%elem_of_nil|?]; done.
Qed.

End project_facts.

Lemma queue_years_raises (year_pattern : string → bool)
  (src : string → Split.aggregate) (project_path : string)
  (dst : gmap string stored) (listing : list string) (year : string)
  (asset_list printed : list string) :
  year ∈ listing → year_pattern year = true → unusable_year src dst year →
  ∃ e, snd (Project.queue_years year_pattern src project_path dst listing
              asset_list printed) = Some e.
Proof.
  intros Hin Hy Hbad. revert asset_list printed.
  induction listing as [|y listing IH]; intros asset_list printed.
  { by apply elem_of_nil in Hin. }
  simpl. destruct (decide (y = year)) as [->|Hne].
  - rewrite Hy. simpl.
    destruct Hbad as [->|[->|[[index_map ->]|Hdst]]]; try by eexists.
    + destruct (dst !! year) as [[|h i]|]; by eexists.
    + rewrite Hdst. destruct (src year); by eexists.
  - apply elem_of_cons in Hin as [?|Hin]; [congruence|].
    destruct (year_pattern y); simpl; [|by apply IH].
    destruct (src y) as [| |index_map [entries|]]; try by eexists.
    + destruct (dst !! y) as [[|h i]|]; try by eexists.
      * destruct (Project.queue_entries _ _ _ _ _ _). by apply IH.
      * by apply IH.
    + destruct (dst !! y) as [[|h i]|]; by eexists.
Qed.

Section project_import.

Context {clock : Clock}.

(** X14: when the queue of [import_assets_from_project] is built without
    an exception, the queued paths are exactly the entries of the source
    HashIndexes of the listed year directories whose fingerprint is not in
    the destination's HashIndex of that year, the printed paths are exactly
    those whose fingerprint is there, and [import_assets] is then run on
    the queue with [with_copy] set, whatever the caller's flag. *)
Theorem project_import_queues_by_absence (year_pattern : string → bool)
  (src : string → Split.aggregate) (options : ArgumentOptions)
  (project_path : string) (listing : list string) (s : run_state)
  (asset_list printed : list string) :
  Project.queue_years year_pattern src project_path (disk s) listing [] []
  = (asset_list, printed, None) →
  Project.import_assets_from_project year_pattern src options project_path
    listing s
  = (printed,
     inr (import_assets
            (Options (work_path options) (project_name options) true
               (with_date options)) asset_list s))
  ∧ (∀ p, p ∈ asset_list
          ↔ source_entry year_pattern src project_path (disk s) listing
              false p)
  ∧ (∀ p, p ∈ printed
          ↔ source_entry year_pattern src project_path (disk s) listing
              true p).
Proof.
  intros Hq. unfold Project.import_assets_from_project. rewrite Hq.
  split; [done|].
  destruct (queue_years_spec _ _ _ _ _ _ _ _ _ Hq)
    as (q & r & -> & -> & Hqueued & Hprinted).
  done.
Qed.

End project_import.

Lemma project_import_witness :
  source_entry four_digits other_project "/other" catalog_2023
    ["2023"; ".DS_Store"] false "/other/2023/202305_0002.JPG"
  ∧ source_entry four_digits other_project "/other" catalog_2023
      ["2023"; ".DS_Store"] true "/other/2023/202305_0001.JPG".
Proof.
  destruct (project_import_queues_by_absence four_digits other_project
              album_options "/other" ["2023"; ".DS_Store"]
              (init_state ∅ catalog_2023)
              ["/other/2023/202305_0002.JPG"]
              ["/other/2023/202305_0001.JPG"]) as (_ & Hq & Hp).
  - vm_compute. reflexivity.
  - split; [apply Hq|apply Hp]; left.
Defined.

Section project_import_stops.

Context {clock : Clock}.

(** X15: when a listed year directory has no source catalog, or one that
    cannot be parsed or has no "hash" section, or when the destination
    catalog of that year exists and cannot be parsed, the command raises
    while building the queue and [import_assets] is not run.  (A
    destination catalog that cannot be parsed is read as empty by
    [get_database], but not here.) *)
Theorem project_import_stops_on_unusable_catalog
  (year_pattern : string → bool) (src : string → Split.aggregate)
  (options : ArgumentOptions) (project_path : string)
  (listing : list string) (year : string) (s : run_state) :
  year ∈ listing → year_pattern year = true →
  unusable_year src (disk s) year →
  ∃ printed e,
    Project.import_assets_from_project year_pattern src options project_path
      listing s = (printed, inl e).
Proof.
  intros Hin Hy Hbad. unfold Project.import_assets_from_project.
  destruct (queue_years_raises year_pattern src project_path (disk s) listing
              year [] [] Hin Hy Hbad) as [e He].
  destruct (Project.queue_years _ _ _ _ _ _ _) as [[a p] [e'|]]; [|done].
  by exists p, e'.
Qed.

End project_import_stops.

Lemma project_import_stops_witness :
  ∃ printed e,
    Project.import_assets_from_project four_digits other_project album_options
      "/other" ["2023"; "2022"] (init_state ∅ catalog_2023) = (printed, inl e).
Proof.
  apply (project_import_stops_on_unusable_catalog four_digits other_project
           album_options "/other" ["2023"; "2022"] "2022"
           (init_state ∅ catalog_2023)).
  - right. left.
  - reflexivity.
  - left. reflexivity.
Defined.

(** ** The scanner *)

Lemma path_cut (x b : string) (it : item) :
  has_char "." b = false →
  target_location it = x +:+ String "." b →
  common_path_of it = x ∧ extension_of it = b.
Proof.
  intros Hb Hs. unfold common_path_of, extension_of, rfind. rewrite Hs.
  rewrite rfind_from_last by done. rewrite Z.add_0_l.
  assert (String.length (x +:+ String "." b)
          = (String.length x + 1 + String.length b)%nat) as Hlen.
  { rewrite string_app_length. simpl. lia. }
  split.
  - unfold slice_to, len. rewrite clip_nonneg by lia. apply substring_prefix.
  - unfold slice_from, len.
    replace (Z.of_nat (String.length x) + 1)
      with (Z.of_nat (String.length x + 1)) by lia.
    rewrite clip_nonneg by lia.
    replace (x +:+ String "." b) with ((x +:+ ".") +:+ b)
      by (by rewrite string_app_assoc).
    replace (String.length ((x +:+ ".") +:+ b) - (String.length x + 1))%nat
      with (String.length b)
      by (rewrite !string_app_length; simpl; lia).
    replace (String.length x + 1)%nat with (String.length (x +:+ "."))
      by (rewrite string_app_length; simpl; lia).
    apply substring_suffix.
Qed.

Lemma path_join_suffix (a b : string) : ∃ pre, path_join a b = pre +:+ b.
Proof.
  unfold path_join.
  repeat case_match; subst;
    first [ by exists EmptyString
          | by exists a
          | exists (a +:+ "/"); by rewrite string_app_assoc ].
Qed.

Section scanner_facts.

Variable asset_pattern : string → bool.
Variable islink : string → bool.

Lemma collect_files_spec (walk_path : string) (names asset_list : list string) :
  Scanner.collect_files asset_pattern islink walk_path names asset_list
  = asset_list
    ++ (path_join walk_path
          <$> filter (λ n, String.prefix "." n = false
                           ∧ asset_pattern n = true
                           ∧ islink (path_join walk_path n) = false) names).
Proof.
  revert asset_list. induction names as [|n names IH]; intros asset_list;
    simpl.
  - by rewrite app_nil_r.
  - destruct (String.prefix "." n) eqn:Hdot.
    { rewrite IH, filter_cons_False; [done|]. intros (? & _). congruence. }
    destruct (asset_pattern n) eqn:Hpat; simpl.
    2:{ rewrite IH, filter_cons_False; [done|]. intros (_ & ? & _).
        congruence. }
    destruct (islink (path_join walk_path n)) eqn:Hlink.
    { rewrite IH, filter_cons_False; [done|]. intros (_ & _ & ?).
      congruence. }
    rewrite IH, filter_cons_True by done. by rewrite <-app_assoc.
Qed.

Lemma collect_elem (walk : list (string * list string)) (p : string) :
  p ∈ Scanner.collect asset_pattern islink walk →
  ∃ walk_path names n,
    (walk_path, names) ∈ walk ∧ n ∈ names ∧ p = path_join walk_path n
    ∧ String.prefix "." n = false ∧ asset_pattern n = true
    ∧ islink p = false.
Proof.
  unfold Scanner.collect.
  assert (∀ acc,
            p ∈ fold_left
                  (λ asset_list w,
                     Scanner.collect_files asset_pattern islink (fst w)
                       (snd w) asset_list) walk acc →
            p ∈ acc
            ∨ ∃ walk_path names n,
                (walk_path, names) ∈ walk ∧ n ∈ names
                ∧ p = path_join walk_path n
                ∧ String.prefix "." n = false ∧ asset_pattern n = true
                ∧ islink p = false) as Hgen.
  { induction walk as [|[wp names] walk IH]; intros acc; simpl; [by left|].
    intros [Hacc|(wp' & names' & n & Hin & H)]%IH.
    - rewrite collect_files_spec in Hacc.
      apply elem_of_app in Hacc as [?|Hnew]; [by left|]. right.
      apply list_elem_of_fmap in Hnew
        as (n & -> & [(Hdot & Hpat & Hlink) Hn]%list_elem_of_filter).
      exists wp, names, n. split; [left|]. done.
    - right. exists wp', names', n. split; [by right|done]. }
  intros [?%elem_of_nil|?]%Hgen; done.
Qed.

End scanner_facts.

Lemma prefix_dot_cons (s : string) : String.prefix "." (String "." s) = true.
Proof. simpl. destruct (ascii_dec "." "."); [by destruct s|done]. Qed.

(** X16: if the asset pattern only matches names that contain a dot, every
    path the scanner hands to [import_assets] is a directory joined with a
    name [stem.ext] whose stem is not empty and whose extension has no
    dot; it is no link; its extension for the destination name is [ext]
    and its companion key ends with the stem. *)
Theorem scanned_paths_have_stem_and_extension (asset_pattern : string → bool)
  (islink : string → bool) (walk : list (string * list string)) (p : string) :
  (∀ n, asset_pattern n = true → has_char "." n = true) →
  p ∈ Scanner.collect asset_pattern islink walk →
  ∃ directory names stem ext,
    (directory, names) ∈ walk
    ∧ stem +:+ "." +:+ ext ∈ names
    ∧ p = path_join directory (stem +:+ "." +:+ ext)
    ∧ stem ≠ "" ∧ has_char "." ext = false
    ∧ asset_pattern (stem +:+ "." +:+ ext) = true
    ∧ islink p = false
    ∧ ∀ it, target_location it = p →
        extension_of it = ext ∧ ∃ pre, common_path_of it = pre +:+ stem.
Proof.
  intros Hdot Hp.
  apply collect_elem in Hp
    as (wp & names & n & Hin & Hn & -> & Hhid & Hpat & Hlink).
  destruct (split_at_last "." n (Hdot n Hpat)) as (stem & ext & -> & Hext).
  exists wp, names, stem, ext. repeat split; try done.
  - intros ->. rewrite string_app_nil_l, prefix_dot_cons in Hhid. done.
  - destruct (path_join_suffix wp (stem +:+ String "." ext)) as [pre Hpre].
    rewrite Hpre, <-string_app_assoc in H.
    by destruct (path_cut _ _ it Hext H).
  - destruct (path_join_suffix wp (stem +:+ String "." ext)) as [pre Hpre].
    rewrite Hpre, <-string_app_assoc in H.
    exists pre. by destruct (path_cut _ _ it Hext H).
Qed.

Lemma ascii_camera_pattern_dot (n : string) :
  ascii_camera_pattern n = true → has_char "." n = true.
Proof.
  induction n as [|c n IH]; simpl; [done|].
  intros [[Hc _]%andb_true_iff|Hn]%orb_true_iff.
  - by rewrite Hc.
  - rewrite IH by done. apply orb_true_r.
Qed.

Lemma scanned_paths_witness :
  ∃ directory names stem ext,
    (directory, names) ∈ camera_folder
    ∧ stem +:+ "." +:+ ext ∈ names
    ∧ "/in/IMG_0001.mov" = path_join directory (stem +:+ "." +:+ ext)
    ∧ stem ≠ "" ∧ has_char "." ext = false
    ∧ ascii_camera_pattern (stem +:+ "." +:+ ext) = true
    ∧ no_links "/in/IMG_0001.mov" = false
    ∧ ∀ it, target_location it = "/in/IMG_0001.mov" →
        extension_of it = ext ∧ ∃ pre, common_path_of it = pre +:+ stem.
Proof.
  apply (scanned_paths_have_stem_and_extension ascii_camera_pattern no_links
           camera_folder "/in/IMG_0001.mov").
  - apply ascii_camera_pattern_dot.
  - vm_compute. right. left.
Defined.

(** ** The repair of file times *)

Section repair_facts.

Variable asset_pattern : string → bool.
Variable date_pattern : string → bool.
Variable create_time : string → option Z.

Hypothesis no_date_in_nothing : date_pattern "" = false.

Lemma header_date_pairs_skip (line : string) (rest : list string) :
  String.prefix "====" line = false →
  Scanner.header_date_pairs asset_pattern date_pattern create_time
    (line :: rest)
  = Scanner.header_date_pairs asset_pattern date_pattern create_time rest.
Proof. intros H. simpl. rewrite H. by destruct rest. Qed.

Lemma repair_lines_pairs (lines : list string) :
  Forall (plain_line date_pattern) lines →
  (∀ line, line ∈ lines → date_pattern line = true →
     is_Some (create_time (Scanner.date_text line))) →
  (∀ calls,
     Scanner.repair_lines asset_pattern date_pattern create_time lines calls
     = (calls ++ Scanner.header_date_pairs asset_pattern date_pattern
                   create_time lines, Scanner.Done))
  ∧ ∀ line,
      plain_line date_pattern line →
      (date_pattern line = true →
       is_Some (create_time (Scanner.date_text line))) →
      ∀ calls,
        Scanner.repair_lines asset_pattern date_pattern create_time
          (line :: lines) calls
        = (calls ++ Scanner.header_date_pairs asset_pattern date_pattern
                      create_time (line :: lines), Scanner.Done).
Proof.
  induction lines as [|exif_info rest IH]; intros Hplain Htimes.
  - split; [intros calls; by rewrite app_nil_r|].
    intros line [Hne _] _ calls. simpl.
    apply String.eqb_neq in Hne. rewrite Hne.
    destruct (String.prefix "====" line); [|by rewrite app_nil_r].
    destruct (asset_pattern _); simpl; [|by rewrite app_nil_r].
    by rewrite no_date_in_nothing, app_nil_r.
  - apply Forall_cons in Hplain as [Hexif Hplain].
    assert (∀ l, l ∈ rest → date_pattern l = true →
                 is_Some (create_time (Scanner.date_text l))) as Htimes'.
    { intros l Hl. apply Htimes. by right. }
    destruct (IH Hplain Htimes') as [Hrest Hcons]. clear IH.
    assert (∀ calls,
              Scanner.repair_lines asset_pattern date_pattern create_time
                (exif_info :: rest) calls
              = (calls ++ Scanner.header_date_pairs asset_pattern date_pattern
                            create_time (exif_info :: rest), Scanner.Done))
      as Hhere.
    { apply Hcons; [done|]. apply Htimes. left. }
    split; [exact Hhere|].
    intros line [Hne Hboth] Hline calls.
    cbn [Scanner.repair_lines Scanner.header_date_pairs].
    apply String.eqb_neq in Hne. rewrite Hne.
    destruct (String.prefix "====" line) eqn:Hhead; simpl; [|apply Hhere].
    destruct (asset_pattern (Scanner.header_path line)); simpl;
      [|apply Hhere].
    destruct (date_pattern exif_info) eqn:Hdate; simpl; [|apply Hhere].
    destruct (Htimes exif_info) as [t Ht]; [left|done|]. rewrite Ht.
    rewrite Hrest. rewrite <-app_assoc. simpl. do 3 f_equal.
    symmetry. apply header_date_pairs_skip.
    destruct Hexif as [_ Hexif]. rewrite Hdate, andb_true_r in Hexif. done.
Qed.

End repair_facts.

(** X17: on lines of which none is empty and none is at once a header and
    a date line, and whose dates [strptime] accepts, [repair_asset_times]
    makes exactly the [os.utime] calls of a pass over all adjacent lines:
    one for every header of an asset that is followed by a date line, in
    order, and it ends normally.  A header that follows a header without a
    date is not lost. *)
Theorem repair_sets_time_of_every_dated_header
  (asset_pattern date_pattern : string → bool)
  (create_time : string → option Z) (lines : list string) :
  date_pattern "" = false →
  Forall (plain_line date_pattern) lines →
  (∀ line, line ∈ lines → date_pattern line = true →
     is_Some (create_time (Scanner.date_text line))) →
  Scanner.repair_lines asset_pattern date_pattern create_time lines []
  = (Scanner.header_date_pairs asset_pattern date_pattern create_time lines,
     Scanner.Done).
Proof.
  intros Hnil Hplain Htimes.
  destruct (repair_lines_pairs asset_pattern date_pattern create_time Hnil
              lines Hplain Htimes) as [H _].
  apply H.
Qed.

Lemma repair_witness :
  Scanner.repair_lines ascii_camera_pattern ends_with_time toy_create_time
    exiftool_lines []
  = ([("/in/IMG_0002.JPG", 19)], Scanner.Done).
Proof.
  rewrite (repair_sets_time_of_every_dated_header ascii_camera_pattern
             ends_with_time toy_create_time exiftool_lines).
  - vm_compute. reflexivity.
  - reflexivity.
  - repeat constructor; vm_compute; by try discriminate.
  - intros line Hline Hdate. apply (bool_decide_unpack _).
    repeat (apply elem_of_cons in Hline as [->|Hline]; [by vm_compute|]).
    by apply elem_of_nil in Hline.
Defined.

(** ** Two consequences for companion groups and for whole runs *)

(** X18: once the first member of a companion group is recorded with a
    sequence number other than 0 and count 1, the next item with the same
    companion key takes the same sequence number, whatever its own label;
    no counter moves and nothing is allocated. *)
Theorem companion_pair_shares_sequence (it : item) (s : run_state)
  (sequence : Z) :
  live_map s !! common_path_of it = Some (sequence, 1) → sequence ≠ 0 →
  ∃ s',
    assign_sequence it s = (s', Ok sequence)
    ∧ live_map s' !! common_path_of it = Some (sequence, 2)
    ∧ (∀ name label, counter s' name label = counter s name label)
    ∧ allocated s' = allocated s.
Proof. apply assign_sequence_second_member. Qed.

Lemma companion_pair_witness :
  ∃ s',
    assign_sequence pair_item (pair_state video_only) = (s', Ok 1)
    ∧ live_map s' !! common_path_of pair_item = Some (1, 2)
    ∧ (∀ name label,
         counter s' name label = counter (pair_state video_only) name label)
    ∧ allocated s' = allocated (pair_state video_only).
Proof.
  apply (companion_pair_shares_sequence pair_item (pair_state video_only) 1).
  - reflexivity.
  - lia.
Defined.

Section accepted_asset.

Context {clock : Clock}.

(** X19: a run whose scan completes and accepts at least one asset raises
    [TypeError] at the first turn of the placement loop, with the accepted
    assets sorted and nothing copied, moved or written. *)
Theorem accepted_asset_raises_type_error (options : ArgumentOptions)
  (fs : gmap string file_stat) (d : gmap string stored)
  (asset_list : list string) :
  snd (for_each scan_asset asset_list (init_state fs d)) = Ok tt →
  survivors fs d asset_list ≠ [] →
  let r := import_assets options asset_list (init_state fs d) in
  snd r = Raise TypeError
  ∧ ops (fst r) = [] ∧ files (fst r) = fs ∧ disk (fst r) = d
  ∧ increment_list (fst r) = ordered fs d asset_list.
Proof. apply import_assets_raises_on_first_survivor. Qed.

End accepted_asset.

Lemma accepted_asset_witness :
  let r := import_assets album_options ["/in/C.jpg"; "/in/A.JPG"; "/in/B.MOV"]
             (init_state may_files ∅) in
  snd r = Raise TypeError
  ∧ ops (fst r) = [] ∧ files (fst r) = may_files ∧ disk (fst r) = ∅
  ∧ increment_list (fst r)
    = ordered may_files ∅ ["/in/C.jpg"; "/in/A.JPG"; "/in/B.MOV"].
Proof.
  apply (accepted_asset_raises_type_error album_options may_files ∅
           ["/in/C.jpg"; "/in/A.JPG"; "/in/B.MOV"]).
  - vm_compute. reflexivity.
  - vm_compute. discriminate.
Defined.
